(** * Personalized content recommender: the [/api/recommend] endpoint

    A shallow embedding of [backend/app.py].  The endpoint looks a user up
    in the [users] dictionary, scores every entry of the [contents] catalog
    by the cosine similarity of its feature vector with the user's
    preference vector, sorts the scores in descending order, keeps the
    first three and answers with their titles.

    Numbers are modelled as the code has them: the vectors are Python
    integers, converted by NumPy and scikit-learn to IEEE 754 binary64, and
    every arithmetic step of [cosine_similarity] is carried out on binary64
    values with rounding to nearest even, using the executable
    specification of floating-point arithmetic of the standard library
    ([SpecFloat], precision 53, maximal exponent 1024). *)

From Stdlib Require Import ZArith QArith Qabs Lia Bool.
From Stdlib Require Import Floats.SpecFloat.
From stdpp Require Import base option list gmap strings sorting.

Local Open Scope Z_scope.

(** ** IEEE 754 binary64 *)

Module Float64.

Definition float : Type := spec_float.

Definition prec : Z := 53.
Definition emax : Z := 1024.

Definition add : float -> float -> float := SFadd prec emax.
Definition mul : float -> float -> float := SFmul prec emax.
Definition div : float -> float -> float := SFdiv prec emax.
Definition sqrt : float -> float := SFsqrt prec emax.
Definition ltb : float -> float -> bool := SFltb.
Definition eqb : float -> float -> bool := SFeqb.

(** Conversion of an integer, correctly rounded (what NumPy's cast of an
    integer array to [float64] does). *)
Definition of_int (z : Z) : float := binary_normalize prec emax z 0 false.

Definition zero : float := S754_zero false.
Definition one : float := Eval vm_compute in of_int 1.

(** [np.finfo(np.float64).eps], that is 2^-52. *)
Definition eps : float := Eval vm_compute in SFldexp prec emax one (-52).

Definition is_nan (x : float) : bool :=
  match x with S754_nan => true | _ => false end.

(** [np.isfinite]. *)
Definition is_finite (x : float) : bool :=
  match x with S754_zero _ | S754_finite _ _ _ => true | _ => false end.

(** A zero of either sign. *)
Definition is_zero (x : float) : bool :=
  match x with S754_zero _ => true | _ => false end.

(** The rational number a float denotes (0 for infinities and NaN, which
    the statements below exclude separately). *)
Definition to_Q (x : float) : Q :=
  match x with
  | S754_finite s m e =>
      let v := if 0 <=? e then inject_Z (Z.pos m * 2 ^ e)
               else Qmake (Z.pos m) (Z.to_pos (2 ^ (- e))) in
      if s then Qopp v else v
  | _ => 0%Q
  end.

(** [within tol x q]: [x] is a finite float at distance at most [tol]
    from the rational [q]. *)
Definition within (tol : Q) (x : float) (q : Q) : bool :=
  is_finite x && Qle_bool (Qabs (to_Q x - q)) tol.

End Float64.

Import Float64.

(** ** Python values, exceptions and results *)

(** The values a parsed JSON body is made of (what [request.json] returns)
    and the values [jsonify] serialises. *)
#[warnings="-register-all"]
Inductive pyval : Type :=
  | PyNone
  | PyBool (b : bool)
  | PyInt (n : Z)
  | PyFloat (x : float)
  | PyStr (s : string)
  | PyList (l : list pyval)
  | PyDict (d : list (string * pyval)).

(** The exceptions the endpoint's code can raise.  None of them is caught
    by the view function: Flask turns an uncaught exception into an HTTP
    500 answer. *)
Inductive exn : Type :=
  | AttributeError
  | TypeError
  | ValueError
  | StopIteration.

Inductive res (A : Type) : Type :=
  | Ok (a : A)
  | Raise (e : exn).
Arguments Ok {A} a.
Arguments Raise {A} e.

#[global] Instance res_ret : MRet res := fun A a => Ok a.
#[global] Instance res_bind : MBind res := fun A B f m =>
  match m with
  | Ok a => f a
  | Raise e => Raise e
  end.

(** A loop that appends one result per element and stops at the first
    exception. *)
Fixpoint for_each {A B : Type} (f : A -> res B) (l : list A) : res (list B) :=
  match l with
  | [] => Ok []
  | x :: l' => y ← f x; ys ← for_each f l'; Ok (y :: ys)
  end.

(** [d.get(k)] on a dictionary with string keys: the first binding of [k],
    [None] when there is none. *)
Fixpoint dict_get (d : list (string * pyval)) (k : string) : pyval :=
  match d with
  | [] => PyNone
  | (k', v) :: d' => if String.eqb k' k then v else dict_get d' k
  end.

(** [k in d] as a proposition: some binding of [d] has the key [k]. *)
Definition has_key (d : list (string * pyval)) (k : string) : Prop :=
  k ∈ d.*1.

(** [data.get(k)]: only a dictionary has the method. *)
Definition py_get (data : pyval) (k : string) : res pyval :=
  match data with
  | PyDict d => Ok (dict_get d k)
  | _ => Raise AttributeError
  end.

(** The integer a float is equal to, if any (Python compares a float with
    an integer exactly). *)
Definition float_as_int (x : float) : option Z :=
  match x with
  | S754_zero _ => Some 0
  | S754_finite s m e =>
      if 0 <=? e then Some (cond_Zopp s (Z.pos m * 2 ^ e))
      else if Z.pos m mod 2 ^ (- e) =? 0
           then Some (cond_Zopp s (Z.pos m / 2 ^ (- e)))
           else None
  | _ => None
  end.

(** The integer key a hashable value is equal to, if any: [True == 1],
    [False == 0], [1.0 == 1]; a string and [None] equal no integer. *)
Definition int_of_key (v : pyval) : option Z :=
  match v with
  | PyInt n => Some n
  | PyBool b => Some (if b then 1 else 0)
  | PyFloat x => float_as_int x
  | _ => None
  end.

Definition hashable (v : pyval) : bool :=
  match v with
  | PyList _ | PyDict _ => false
  | _ => true
  end.

(** [d[v]] guarded by [v in d], for a dictionary [d] with integer keys:
    hashing a list or a dictionary raises [TypeError]. *)
Definition lookup_key {V : Type} (d : gmap Z V) (v : pyval) : res (option V) :=
  if hashable v then Ok (n ← int_of_key v; d !! n) else Raise TypeError.

(** ** [sorted(l, key=..., reverse=True)]

    Python's sort is stable, and [reverse=True] keeps the stability:
    elements whose keys compare equal stay in their original order.  The
    keys are compared with [<] only. *)
Section Sorted.
Context {A : Type} (key : A -> float).

Fixpoint insert_desc (x : A) (l : list A) : list A :=
  match l with
  | [] => [x]
  | y :: l' =>
      if ltb (key x) (key y) then y :: insert_desc x l' else x :: y :: l'
  end.

Definition sorted_reverse (l : list A) : list A := foldr insert_desc [] l.

(** [key_desc a b]: [a] may stand before [b] in a list sorted by
    decreasing key. *)
Definition key_desc (a b : A) : Prop := ltb (key a) (key b) = false.
End Sorted.

(** ** scikit-learn's [cosine_similarity] on two one-row arrays *)

Module Sklearn.

(** [check_array]: the row is cast to [float64]; an array with no
    feature, or with a value that is not finite, is refused. *)
Definition check_array (row : list Z) : res (list float) :=
  let a := of_int <$> row in
  if bool_decide (a = []) then Raise ValueError
  else if forallb is_finite a then Ok a
  else Raise ValueError.

(** [check_pairwise_arrays]: both arrays are checked, then their numbers
    of columns are compared. *)
Definition check_pairwise_arrays (X Y : list Z) : res (list float * list float) :=
  X' ← check_array X;
  Y' ← check_array Y;
  if bool_decide (length X' = length Y') then Ok (X', Y') else Raise ValueError.

(** The inner product of two rows, accumulated from left to right. *)
Definition dot (a b : list float) : float :=
  foldl (fun acc p => add acc (mul p.1 p.2)) zero (zip a b).

(** [row_norms]: the Euclidean norm of the row. *)
Definition row_norms (a : list float) : float := sqrt (dot a a).

(** [_handle_zeros_in_scale]: a norm below [10 * eps] is replaced by 1. *)
Definition handle_zeros_in_scale (scale : float) : float :=
  if ltb scale (mul (of_int 10) eps) then one else scale.

(** [normalize] with the l2 norm. *)
Definition normalize (a : list float) : list float :=
  let norms := handle_zeros_in_scale (row_norms a) in
  (fun x => div x norms) <$> a.

Definition cosine_similarity (X Y : list Z) : res float :=
  '(X', Y') ← check_pairwise_arrays X Y;
  Ok (dot (normalize X') (normalize Y')).

End Sklearn.

(** ** The application *)

Module User.
Record t : Type := mk { preferences : list Z }.
End User.

Module Content.
Record t : Type := mk { id : Z; title : string; features : list Z }.
End Content.

Module App.

Definition users : gmap Z User.t :=
  {[ 1 := User.mk [5; 4; 0; 0; 5];
     2 := User.mk [0; 0; 5; 4; 3] ]}.

Definition contents : list Content.t :=
  [ Content.mk 1 "Action Adventure" [1; 0; 0; 0; 1];
    Content.mk 2 "Sci-Fi Epic" [0; 1; 0; 0; 1];
    Content.mk 3 "Comedy Special" [0; 0; 1; 1; 0];
    Content.mk 4 "Drama Series" [0; 0; 1; 0; 0];
    Content.mk 5 "Fantasy Tale" [1; 0; 0; 0; 1] ].

(** What the view function returns: [jsonify(body), status] (status 200
    when none is given). *)
Record response : Type := Response { status : Z; body : pyval }.

Definition not_found : response :=
  Response 404 (PyDict [("error", PyStr "User not found")]).

Definition recommendations (rec_titles : list string) : response :=
  Response 200 (PyDict [("recommendations", PyList (PyStr <$> rec_titles))]).

(** The body of the scoring loop for one catalog entry. *)
Definition score (user_prefs : list Z) (content : Content.t) : res (Z * float) :=
  sim ← Sklearn.cosine_similarity user_prefs (Content.features content);
  Ok (Content.id content, sim).

(** The scoring loop: one [(id, sim)] pair per catalog entry, in catalog
    order. *)
Definition similarities (contents : list Content.t) (user_prefs : list Z)
    : res (list (Z * float)) :=
  for_each (score user_prefs) contents.

(** [sorted(similarities, key=lambda x: x[1], reverse=True)[:3]]. *)
Definition top_recs (similarities : list (Z * float)) : list (Z * float) :=
  take 3 (sorted_reverse snd similarities).

(** [next(c['title'] for c in contents if c['id'] == i)]. *)
Definition next_title (contents : list Content.t) (i : Z) : res string :=
  match List.find (fun c => Content.id c =? i) contents with
  | Some c => Ok (Content.title c)
  | None => Raise StopIteration
  end.

Definition rec_titles (contents : list Content.t) (top : list (Z * float))
    : res (list string) :=
  for_each (fun rec => next_title contents rec.1) top.

(** The view function, over arbitrary datasets. *)
Definition recommend_on (users : gmap Z User.t) (contents : list Content.t)
    (data : pyval) : res response :=
  user_id ← py_get data "user_id";
  found ← lookup_key users user_id;
  match found with
  | None => Ok not_found
  | Some u =>
      sims ← similarities contents (User.preferences u);
      titles ← rec_titles contents (top_recs sims);
      Ok (recommendations titles)
  end.

(** The view function of the program, on its two global datasets. *)
Definition recommend (data : pyval) : res response :=
  recommend_on users contents data.

(** A request body [{"user_id": n}]. *)
Definition request_for (n : Z) : pyval := PyDict [("user_id", PyInt n)].




End App.

Import App.

(** ** Vocabulary of the statements *)

(** A value of NumPy's default integer type. *)
Definition int64 (z : Z) : Prop :=
  -9223372036854775808 <= z <= 9223372036854775807.

(** A row scikit-learn accepts: at least one feature, every value a 64-bit
    integer (whose cast to [float64] is finite). *)
Definition valid_row (row : list Z) : Prop :=
  row ≠ [] ∧ Forall int64 row.

(** The data model's invariant: the preference vector and every feature
    vector are valid rows of one common length. *)
Definition consistent (user_prefs : list Z) (contents : list Content.t) : Prop :=
  valid_row user_prefs ∧
  Forall (fun c => valid_row (Content.features c) ∧
                   length (Content.features c) = length user_prefs) contents.

(** The longest rows the magnitude analysis below covers: with at most
    this many features every partial sum of the inner product stays in the
    range of binary64. *)
Definition max_features : nat := 256.

(** No score of the catalog is NaN, so that [<] orders the scores. *)
Definition comparable (user_prefs : list Z) (contents : list Content.t) : Prop :=
  ∀ c s, c ∈ contents →
    Sklearn.cosine_similarity user_prefs (Content.features c) = Ok s →
    is_nan s = false.

(** [descending a b]: the pair [a] may stand before the pair [b] in a list
    sorted by decreasing score. *)
Definition descending (a b : Z * float) : Prop := ltb a.2 b.2 = false.

(** The pairs whose score compares equal to [s]. *)
Definition tied (s : float) (p : Z * float) : bool := eqb p.2 s.



(** A vector of zeros. *)
Definition all_zero (row : list Z) : Prop := Forall (fun z => z = 0) row.

(** A row whose normalised components are all finite. *)
Definition finite_direction (row : list Z) : Prop :=
  Forall (fun y => is_finite y = true) (Sklearn.normalize (of_int <$> row)).

(** [bounded_by k x]: [x] is a zero, or a finite float of magnitude below
    [2 ^ k] whose exponent is at most the canonical exponent of that
    magnitude. *)
Definition bounded_by (k : Z) (x : float) : Prop :=
  match x with
  | S754_zero _ => True
  | S754_finite _ m e => Z.pos (digits2_pos m) + e <= k ∧ e <= fexp prec emax k
  | _ => False
  end.

(** [sign_is s x]: [x] is not NaN and has the sign [s]. *)
Definition sign_is (s : bool) (x : float) : Prop :=
  match x with
  | S754_zero s' | S754_finite s' _ _ | S754_infinity s' => s' = s
  | S754_nan => False
  end.

(** What [handle_zeros_in_scale] returns for a norm: a positive float that
    is not below [10 * eps], or plus infinity. *)
Definition norm_ok (n : float) : Prop :=
  match n with
  | S754_infinity false => True
  | S754_finite false _ e => -101 <= e
  | _ => False
  end.

(** ** The order on binary64 values *)

Ltac cmp_cases :=
  repeat match goal with
  | |- context [Z.compare ?a ?b] => destruct (Z.compare_spec a b); subst
  | H : context [Z.compare ?a ?b] |- _ => destruct (Z.compare_spec a b); subst
  | |- context [Pos.compare_cont Eq ?a ?b] =>
      change (Pos.compare_cont Eq a b) with (Pos.compare a b);
      destruct (Pos.compare_spec a b); subst
  | H : context [Pos.compare_cont Eq ?a ?b] |- _ =>
      change (Pos.compare_cont Eq a b) with (Pos.compare a b) in H;
      destruct (Pos.compare_spec a b); subst
  end.

Ltac float_order :=
  unfold ltb, eqb, SFltb, SFeqb, SFcompare, is_nan;
  repeat match goal with x : float |- _ => destruct x as [[]|[]| |[] ? ?] end;
  simpl; try congruence; cmp_cases; simpl; try congruence; try lia.

Lemma ltb_irrefl (x : float) : ltb x x = false.
Proof. float_order. Qed.

Lemma ltb_asym (x y : float) : ltb x y = true -> ltb y x = false.
Proof. float_order. Qed.

Lemma ltb_neg_trans (x y z : float) :
  is_nan y = false -> ltb x y = false -> ltb y z = false -> ltb x z = false.
Proof. float_order. Qed.


Lemma eqb_ltb_l (x y k : float) :
  eqb x k = true -> ltb x y = true -> eqb y k = false.
Proof. float_order. Qed.

Lemma eqb_not_ltb (x y : float) : eqb x y = true -> ltb x y = false.
Proof. float_order. Qed.




Lemma ltb_zero_or_nan (x y : float) :
  (is_zero x = true ∨ is_nan x = true) ->
  (is_zero y = true ∨ is_nan y = true) -> ltb x y = false.
Proof.
  intros [Hx|Hx] [Hy|Hy]; destruct x as [[]|[]| |[] ? ?], y as [[]|[]| |[] ? ?];
    simpl in *; try congruence; reflexivity.
Qed.

(** ** Magnitude of the results of binary64 operations *)

Lemma Zdigits2_log2 p : Z.pos (digits2_pos p) = Z.log2 (Z.pos p) + 1.
Proof.
  assert (H : forall q, digits2_pos q = Pos.size q).
  { induction q; simpl; congruence. }
  destruct p; simpl; rewrite ?H; lia.
Qed.

Lemma Zdigits2_nonneg m : 0 <= Zdigits2 m.
Proof. destruct m; simpl; lia. Qed.

Lemma Zdigits2_lt_pow m : 0 <= m -> m < 2 ^ Zdigits2 m.
Proof.
  intros Hm. destruct m as [|p|p]; [simpl; lia| |lia]; unfold Zdigits2.
  rewrite Zdigits2_log2. apply Z.log2_spec. lia.
Qed.

Lemma Zdigits2_le m k : 0 <= m -> 0 <= k -> m < 2 ^ k -> Zdigits2 m <= k.
Proof.
  intros Hm Hk H. destruct m as [|p|p]; [simpl; lia| |lia]; unfold Zdigits2.
  rewrite Zdigits2_log2. apply Z.log2_lt_pow2 in H; lia.
Qed.

Lemma Zdigits2_ge_pow m : 0 < m -> 2 ^ (Zdigits2 m - 1) <= m.
Proof.
  intros Hm. destruct m as [|p|p]; [simpl; lia| |lia]; unfold Zdigits2.
  rewrite Zdigits2_log2. replace (Z.log2 (Z.pos p) + 1 - 1) with (Z.log2 (Z.pos p)) by lia.
  apply Z.log2_spec. lia.
Qed.

(* shr_1 *)
Lemma shr_1_digits mrs :
  0 <= shr_m mrs ->
  0 <= shr_m (shr_1 mrs) /\ Zdigits2 (shr_m (shr_1 mrs)) = Z.max 0 (Zdigits2 (shr_m mrs) - 1).
Proof.
  destruct mrs as [m r s]. cbn [shr_m]. intros Hm.
  destruct m as [|[p|p|]|p]; cbn [shr_1 shr_m Zdigits2 digits2_pos]; rewrite ?Pos2Z.inj_succ; try lia.
Qed.

Lemma iter_shr_1_digits p : forall mrs,
  0 <= shr_m mrs ->
  0 <= shr_m (SpecFloat.iter_pos shr_1 p mrs) /\
  Zdigits2 (shr_m (SpecFloat.iter_pos shr_1 p mrs)) = Z.max 0 (Zdigits2 (shr_m mrs) - Z.pos p).
Proof.
  induction p as [p IH|p IH|]; intros mrs Hm; simpl.
  - destruct (shr_1_digits mrs Hm) as [H1 E1].
    destruct (IH _ H1) as [H2 E2]. destruct (IH _ H2) as [H3 E3].
    split; [assumption|]. rewrite E3, E2, E1. lia.
  - destruct (IH _ Hm) as [H2 E2]. destruct (IH _ H2) as [H3 E3].
    split; [assumption|]. rewrite E3, E2. lia.
  - apply shr_1_digits; auto.
Qed.

Lemma shr_m_of_loc m l : shr_m (shr_record_of_loc m l) = m.
Proof. destruct l as [|[]]; reflexivity. Qed.

Lemma shr_fexp_spec m e l :
  0 <= m ->
  0 <= shr_m (fst (shr_fexp prec emax m e l)) /\
  snd (shr_fexp prec emax m e l) = Z.max e (fexp prec emax (Zdigits2 m + e)) /\
  Zdigits2 (shr_m (fst (shr_fexp prec emax m e l))) =
    Z.max 0 (Zdigits2 m - (snd (shr_fexp prec emax m e l) - e)).
Proof.
  intros Hm. unfold shr_fexp, shr.
  pose proof (Zdigits2_nonneg m) as Hd.
  destruct (fexp prec emax (Zdigits2 m + e) - e) as [|p|p] eqn:Hn; cbn [fst snd].
  - rewrite shr_m_of_loc. lia.
  - destruct (iter_shr_1_digits p (shr_record_of_loc m l)) as [H1 H2].
    { now rewrite shr_m_of_loc. }
    rewrite shr_m_of_loc in H2. lia.
  - rewrite shr_m_of_loc. lia.
Qed.

Lemma round_nearest_even_bounds m l :
  m <= round_nearest_even m l <= m + 1.
Proof. destruct l as [|[]]; simpl; try lia. destruct (Z.even m); lia. Qed.

Lemma Zdigits2_succ_le m m' : 0 <= m -> 0 <= m' <= m + 1 -> Zdigits2 m' <= Zdigits2 m + 1.
Proof.
  intros Hm Hm'. pose proof (Zdigits2_nonneg m) as Hd.
  apply Zdigits2_le; [lia|lia|].
  pose proof (Zdigits2_lt_pow m Hm).
  rewrite Z.pow_add_r by lia. lia.
Qed.

Lemma fexp_unfold k : fexp prec emax k = Z.max (k - 53) (-1074).
Proof. reflexivity. Qed.

Lemma binary_round_aux_bound sx mx ex lx k :
  0 <= mx -> Zdigits2 mx + ex <= k -> ex <= fexp prec emax (k + 1) ->
  -1074 <= k -> k <= 1023 ->
  bounded_by (k + 1) (binary_round_aux prec emax sx mx ex lx) /\
  sign_is sx (binary_round_aux prec emax sx mx ex lx).
Proof.
  intros Hm Hk He Hlo Hhi. unfold binary_round_aux.
  pose proof (shr_fexp_spec mx ex lx Hm) as Hspec1.
  destruct (shr_fexp prec emax mx ex lx) as [mrs' e'] eqn:Hs1.
  cbn [fst snd] in Hspec1. destruct Hspec1 as (H1 & E1 & D1).
  set (m1 := round_nearest_even (shr_m mrs') (loc_of_shr_record mrs')).
  pose proof (round_nearest_even_bounds (shr_m mrs') (loc_of_shr_record mrs')) as Hr.
  fold m1 in Hr.
  assert (Hm1 : 0 <= m1) by lia.
  pose proof (Zdigits2_succ_le (shr_m mrs') m1 H1 ltac:(lia)) as Hd1.
  pose proof (shr_fexp_spec m1 e' loc_Exact Hm1) as Hspec2.
  destruct (shr_fexp prec emax m1 e' loc_Exact) as [mrs'' e''] eqn:Hs2.
  cbn [fst snd] in Hspec2. destruct Hspec2 as (H2 & E2 & D2).
  pose proof (Zdigits2_nonneg mx) as Hdx.
  pose proof (Zdigits2_nonneg m1) as Hdm1.
  rewrite fexp_unfold in *.
  destruct (shr_m mrs'') as [|m|m] eqn:Hm''; [simpl; auto| |exfalso; lia].
  assert (Hdm : Zdigits2 (Z.pos m) = Z.pos (digits2_pos m)) by reflexivity.
  assert (Hfin : e'' <= 971) by lia.
  replace (e'' <=? emax - prec) with true by (symmetry; apply Z.leb_le; unfold emax, prec; lia).
  cbn [bounded_by sign_is]. rewrite fexp_unfold. split; [split|reflexivity]; lia.
Qed.

Lemma binary_round_aux_sign sx mx ex lx :
  0 <= mx -> sign_is sx (binary_round_aux prec emax sx mx ex lx).
Proof.
  intros Hm. unfold binary_round_aux.
  pose proof (shr_fexp_spec mx ex lx Hm) as Hspec1.
  destruct (shr_fexp prec emax mx ex lx) as [mrs' e'] eqn:Hs1.
  cbn [fst snd] in Hspec1. destruct Hspec1 as (H1 & _ & _).
  set (m1 := round_nearest_even (shr_m mrs') (loc_of_shr_record mrs')).
  pose proof (round_nearest_even_bounds (shr_m mrs') (loc_of_shr_record mrs')) as Hr.
  fold m1 in Hr.
  assert (Hm1 : 0 <= m1) by lia.
  pose proof (shr_fexp_spec m1 e' loc_Exact Hm1) as Hspec2.
  destruct (shr_fexp prec emax m1 e' loc_Exact) as [mrs'' e''] eqn:Hs2.
  cbn [fst snd] in Hspec2. destruct Hspec2 as (H2 & _ & _).
  destruct (shr_m mrs'') as [|m|m]; [reflexivity| |exfalso; lia].
  destruct (e'' <=? emax - prec); reflexivity.
Qed.

(* shifting a mantissa to the left *)
Lemma iter_xO_spec m n : Z.pos (Pos.iter xO m n) = Z.pos m * 2 ^ Z.pos n.
Proof.
  revert m. induction n using Pos.peano_ind; intros m.
  - simpl. lia.
  - rewrite Pos.iter_succ, Pos2Z.inj_succ, Z.pow_succ_r by lia.
    rewrite Pos2Z.inj_xO, IHn. lia.
Qed.

Lemma Zdigits2_mul_pow m n : 0 < m -> 0 <= n -> Zdigits2 (m * 2 ^ n) = Zdigits2 m + n.
Proof.
  intros Hm Hn. destruct m as [|p|p]; [lia| |lia].
  assert (Hpos : 0 < Z.pos p * 2 ^ n) by (apply Z.mul_pos_pos; [lia|apply Z.pow_pos_nonneg; lia]).
  destruct (Z.pos p * 2 ^ n) as [|q|q] eqn:Hq; [lia| |lia].
  unfold Zdigits2. rewrite !Zdigits2_log2, <-Hq, Z.log2_mul_pow2 by lia. lia.
Qed.

Lemma shl_align_spec mx ex ex' :
  let '(m, e) := shl_align mx ex ex' in
  e = Z.min ex ex' /\ Z.pos m = Z.pos mx * 2 ^ (ex - e).
Proof.
  unfold shl_align. destruct (ex' - ex) as [|d|d] eqn:Hd.
  - split; [lia|]. replace (ex - ex) with 0 by lia. simpl. lia.
  - split; [lia|]. replace (ex - ex) with 0 by lia. simpl. lia.
  - split; [lia|]. rewrite iter_xO_spec. f_equal. f_equal. lia.
Qed.

Lemma shl_align_digits mx ex ex' :
  Z.pos (digits2_pos (fst (shl_align mx ex ex'))) + snd (shl_align mx ex ex')
    = Z.pos (digits2_pos mx) + ex /\
  snd (shl_align mx ex ex') = Z.min ex ex'.
Proof.
  pose proof (shl_align_spec mx ex ex') as H.
  destruct (shl_align mx ex ex') as [m e]. cbn [fst snd]. destruct H as [He Hm].
  split; [|exact He].
  change (Z.pos (digits2_pos m)) with (Zdigits2 (Z.pos m)).
  rewrite Hm, Zdigits2_mul_pow by lia. simpl Zdigits2. lia.
Qed.

Lemma binary_round_bound sx m e k :
  Z.pos (digits2_pos m) + e <= k -> -1074 <= k -> k <= 1023 ->
  bounded_by (k + 1) (binary_round prec emax sx m e) /\
  sign_is sx (binary_round prec emax sx m e).
Proof.
  intros Hk Hlo Hhi. unfold binary_round.
  pose proof (shl_align_digits m e (fexp prec emax (Z.pos (digits2_pos m) + e))) as H.
  destruct (shl_align m e _) as [mz ez]. cbn [fst snd] in H. destruct H as [Hd He].
  apply binary_round_aux_bound; try lia.
  - unfold Zdigits2. lia.
  - rewrite fexp_unfold in *. lia.
Qed.

Lemma binary_round_sign sx m e : sign_is sx (binary_round prec emax sx m e).
Proof.
  unfold binary_round. destruct (shl_align m e _) as [mz ez].
  apply binary_round_aux_sign. lia.
Qed.

Lemma bounded_by_mono k k' x : k <= k' -> bounded_by k x -> bounded_by k' x.
Proof.
  intros Hk. destruct x as [| | |s m e]; simpl; auto.
  rewrite !fexp_unfold. lia.
Qed.

Lemma binary_round_aux_bounded sx mx ex lx k :
  0 <= mx -> Zdigits2 mx + ex + 1 <= k -> ex <= fexp prec emax k ->
  -1073 <= k -> k <= 1024 ->
  bounded_by k (binary_round_aux prec emax sx mx ex lx).
Proof.
  intros. apply (bounded_by_mono (k - 1 + 1)); [lia|].
  apply binary_round_aux_bound; try lia.
  now replace (k - 1 + 1) with k by lia.
Qed.

Lemma binary_round_bounded sx m e k :
  Z.pos (digits2_pos m) + e + 1 <= k -> -1073 <= k -> k <= 1024 ->
  bounded_by k (binary_round prec emax sx m e).
Proof.
  intros. apply (bounded_by_mono (k - 1 + 1)); [lia|].
  apply binary_round_bound; lia.
Qed.

Lemma Zdigits2_mul a b : 0 < a -> 0 < b -> Zdigits2 (a * b) <= Zdigits2 a + Zdigits2 b.
Proof.
  intros Ha Hb.
  pose proof (Zdigits2_nonneg a). pose proof (Zdigits2_nonneg b).
  apply Zdigits2_le; [nia|lia|].
  rewrite Z.pow_add_r by lia.
  pose proof (Zdigits2_lt_pow a ltac:(lia)). pose proof (Zdigits2_lt_pow b ltac:(lia)).
  nia.
Qed.

Lemma mul_bound kx ky x y :
  0 <= kx -> 0 <= ky -> kx + ky <= 1023 ->
  bounded_by kx x -> bounded_by ky y ->
  bounded_by (kx + ky + 1) (SFmul prec emax x y).
Proof.
  intros Hkx Hky Hk Hx Hy.
  destruct x as [sx|sx| |sx mx ex], y as [sy|sy| |sy my ey]; cbn [bounded_by] in Hx, Hy; try contradiction;
    try exact I.
  unfold SFmul. rewrite fexp_unfold in *.
  apply binary_round_aux_bounded; try lia.
  - pose proof (Zdigits2_mul (Z.pos mx) (Z.pos my) ltac:(lia) ltac:(lia)) as H.
    change (Zdigits2 (Z.pos mx)) with (Z.pos (digits2_pos mx)) in H.
    change (Zdigits2 (Z.pos my)) with (Z.pos (digits2_pos my)) in H.
    rewrite Pos2Z.inj_mul. lia.
  - rewrite fexp_unfold. lia.
Qed.

Lemma mul_self_sign x :
  match x with S754_nan => False | _ => True end -> sign_is false (SFmul prec emax x x).
Proof.
  destruct x as [[]|[]| |[] m e]; simpl; try tauto;
    intros _; apply binary_round_aux_sign; lia.
Qed.

Lemma add_sign x y :
  sign_is false x -> sign_is false y -> sign_is false (SFadd prec emax x y).
Proof.
  destruct x as [sx|sx| |sx mx ex], y as [sy|sy| |sy my ey]; simpl; try tauto;
    intros -> ->; try reflexivity.
  cbn [cond_Zopp Z.add binary_normalize]. apply binary_round_sign.
Qed.

Lemma add_bound k x y :
  0 <= k -> k <= 1022 ->
  bounded_by k x -> bounded_by k y ->
  bounded_by (k + 2) (SFadd prec emax x y).
Proof.
  intros Hk0 Hk Hx Hy.
  destruct x as [sx|sx| |sx mx ex], y as [sy|sy| |sy my ey]; cbn [bounded_by] in Hx, Hy; try contradiction.
  - simpl. destruct sx, sy; exact I.
  - apply (bounded_by_mono k); [lia|exact Hy].
  - apply (bounded_by_mono k); [lia|exact Hx].
  - unfold SFadd.
    set (ez := Z.min ex ey).
    pose proof (shl_align_spec mx ex ez) as Ha.
    pose proof (shl_align_spec my ey ez) as Hb.
    destruct (shl_align mx ex ez) as [a ea], (shl_align my ey ez) as [b eb].
    cbn [fst]. destruct Ha as [Hea Ha], Hb as [Heb Hb].
    assert (Ea : ea = ez) by lia. assert (Eb : eb = ez) by lia. subst ea eb.
    rewrite Ea in Ha. rewrite Eb in Hb.
    assert (Hda : Z.pos a < 2 ^ (k - ez)).
    { rewrite Ha. pose proof (Zdigits2_lt_pow (Z.pos mx) ltac:(lia)) as H. unfold Zdigits2 in H.
      assert (2 ^ Z.pos (digits2_pos mx) * 2 ^ (ex - ez) <= 2 ^ (k - ez)).
      { rewrite <-Z.pow_add_r by lia. apply Z.pow_le_mono_r; lia. }
      assert (0 < 2 ^ (ex - ez)) by (apply Z.pow_pos_nonneg; lia).
      eapply Z.lt_le_trans; [|eassumption]. apply Zmult_lt_compat_r; assumption. }
    assert (Hdb : Z.pos b < 2 ^ (k - ez)).
    { rewrite Hb. pose proof (Zdigits2_lt_pow (Z.pos my) ltac:(lia)) as H. unfold Zdigits2 in H.
      assert (2 ^ Z.pos (digits2_pos my) * 2 ^ (ey - ez) <= 2 ^ (k - ez)).
      { rewrite <-Z.pow_add_r by lia. apply Z.pow_le_mono_r; lia. }
      assert (0 < 2 ^ (ey - ez)) by (apply Z.pow_pos_nonneg; lia).
      eapply Z.lt_le_trans; [|eassumption]. apply Zmult_lt_compat_r; assumption. }
    assert (Hkz : 0 <= k - ez) by lia.
    assert (Hpow : 2 ^ (k - ez + 1) = 2 * 2 ^ (k - ez)) by (rewrite Z.pow_add_r by lia; lia).
    set (z := cond_Zopp sx (Z.pos a) + cond_Zopp sy (Z.pos b)).
    assert (Hz : Z.abs z < 2 ^ (k - ez + 1)).
    { unfold z. destruct sx, sy; simpl cond_Zopp; lia. }
    destruct z as [|m|m] eqn:Ez; cbn [binary_normalize]; [exact I| |].
    + apply binary_round_bounded; try lia.
      pose proof (Zdigits2_le (Z.pos m) (k - ez + 1) ltac:(lia) ltac:(lia) ltac:(lia)) as H.
      unfold Zdigits2 in H. lia.
    + apply binary_round_bounded; try lia.
      pose proof (Zdigits2_le (Z.pos m) (k - ez + 1) ltac:(lia) ltac:(lia) ltac:(lia)) as H.
      unfold Zdigits2 in H. lia.
Qed.

Lemma div_bound kx x n :
  0 <= kx -> kx <= 921 ->
  bounded_by kx x -> norm_ok n ->
  bounded_by (kx + 102) (SFdiv prec emax x n).
Proof.
  intros Hk0 Hk Hx Hn.
  destruct x as [sx|sx| |sx mx ex], n as [sn|[]| |[] mn en];
    cbn [bounded_by norm_ok] in Hx, Hn; try contradiction; try exact I.
  unfold SFdiv, SFdiv_core_binary.
  set (d1 := Zdigits2 (Z.pos mx)). set (d2 := Zdigits2 (Z.pos mn)).
  set (e' := Z.min (fexp prec emax (d1 + ex - (d2 + en))) (ex - en)).
  set (s := ex - en - e').
  set (m' := match s with Z.pos _ => Z.shiftl (Z.pos mx) s | 0 => Z.pos mx | Z.neg _ => 0 end).
  assert (Hd1 : d1 = Z.pos (digits2_pos mx)) by reflexivity.
  assert (Hd2 : d2 = Z.pos (digits2_pos mn)) by reflexivity.
  assert (Hs : 0 <= s) by (unfold s, e'; lia).
  assert (Hm' : m' = Z.pos mx * 2 ^ s).
  { unfold m'. destruct s as [|p|p] eqn:Es; [simpl; lia| |lia].
    rewrite Z.shiftl_mul_pow2 by lia. reflexivity. }
  pose proof (Z_div_mod m' (Z.pos mn) ltac:(lia)) as Hdiv.
  destruct (Z.div_eucl m' (Z.pos mn)) as [q r]. destruct Hdiv as [Hq Hr].
  assert (Hpow : 0 < 2 ^ s) by (apply Z.pow_pos_nonneg; lia).
  assert (Hq0 : 0 <= q) by nia.
  assert (Hdq : Zdigits2 q <= Z.max 0 (d1 + s - d2 + 1)).
  { destruct (Z.eq_dec q 0) as [->|Hne]; [simpl; lia|].
    pose proof (Zdigits2_ge_pow q ltac:(lia)) as Hlo.
    pose proof (Zdigits2_ge_pow (Z.pos mn) ltac:(lia)) as Hlon. fold d2 in Hlon.
    pose proof (Zdigits2_lt_pow (Z.pos mx) ltac:(lia)) as Hhi. fold d1 in Hhi.
    assert (H1 : 2 ^ (Zdigits2 q - 1) * 2 ^ (d2 - 1) <= q * Z.pos mn).
    { apply Z.mul_le_mono_nonneg; try lia; apply Z.pow_nonneg; lia. }
    assert (H2 : q * Z.pos mn < 2 ^ d1 * 2 ^ s).
    { apply Z.le_lt_trans with m'; [lia|]. rewrite Hm'.
      apply Zmult_lt_compat_r; assumption. }
    pose proof (Zdigits2_nonneg q) as Hdq0.
    assert (Hdqpos : 1 <= Zdigits2 q).
    { destruct q; try lia. simpl. lia. }
    rewrite <-!Z.pow_add_r in * by lia.
    assert (Zdigits2 q - 1 + (d2 - 1) < d1 + s).
    { apply (Z.pow_lt_mono_r_iff 2); lia. }
    lia. }
  assert (Es : s = ex - en - e') by reflexivity.
  assert (Ee : e' = Z.min (Z.max (d1 + ex - (d2 + en) - 53) (-1074)) (ex - en)) by reflexivity.
  assert (Hd2pos : 1 <= d2) by lia.
  rewrite fexp_unfold in *.
  apply binary_round_aux_bounded; try lia.
  rewrite fexp_unfold. lia.
Qed.

Lemma sqrt_sign x : sign_is false x -> sign_is false (SFsqrt prec emax x).
Proof.
  destruct x as [sx|sx| |sx mx ex]; simpl; try tauto; intros ->; try reflexivity.
  unfold SFsqrt_core_binary.
  set (m' := match _ with Z.pos _ => _ | 0 => _ | Z.neg _ => _ end).
  assert (Hm' : 0 <= m').
  { unfold m'. destruct (ex - 2 * _) as [|p|p]; try lia.
    rewrite Z.shiftl_mul_pow2 by lia. apply Z.mul_nonneg_nonneg; [lia|]. apply Z.pow_nonneg. lia. }
  pose proof (Z.sqrtrem_spec m' Hm') as Hsq.
  destruct (Z.sqrtrem m') as [q r].
  apply binary_round_aux_sign. lia.
Qed.

Lemma of_int_bound z : Z.abs z <= 2 ^ 63 -> bounded_by 65 (of_int z).
Proof.
  intros Hz. unfold of_int.
  destruct z as [|m|m]; cbn [binary_normalize]; [exact I| |].
  - apply binary_round_bounded; try lia.
    pose proof (Zdigits2_le (Z.pos m) 64 ltac:(lia) ltac:(lia) ltac:(lia)) as H.
    unfold Zdigits2 in H. lia.
  - apply binary_round_bounded; try lia.
    pose proof (Zdigits2_le (Z.pos m) 64 ltac:(lia) ltac:(lia) ltac:(lia)) as H.
    unfold Zdigits2 in H. lia.
Qed.

(** ** The result monad and the loops *)

Lemma for_each_Ok {A B} (f : A -> res B) l r :
  for_each f l = Ok r <-> Forall2 (fun x y => f x = Ok y) l r.
Proof.
  revert r. induction l as [|x l IH]; intros r; simpl.
  - split; [intros [= <-]; constructor | by inversion 1].
  - split.
    + destruct (f x) as [y|] eqn:Hx; simpl; [|done].
      destruct (for_each f l) as [ys|] eqn:Hl; simpl; [|done].
      intros [= <-]. constructor; [done|]. by apply IH.
    + inversion 1 as [|? y ? ys Hx Hl]; subst. rewrite Hx. simpl.
      apply IH in Hl. rewrite Hl. done.
Qed.

Lemma for_each_total {A B} (f : A -> res B) l :
  Forall (fun x => ∃ y, f x = Ok y) l -> ∃ r, for_each f l = Ok r.
Proof.
  induction 1 as [|x l [y Hy] _ [r Hr]]; simpl; [by eexists|].
  rewrite Hy, Hr. by eexists.
Qed.

Lemma for_each_length {A B} (f : A -> res B) l r :
  for_each f l = Ok r -> length r = length l.
Proof. intros H%for_each_Ok. symmetry. by eapply Forall2_length. Qed.


(** ** Properties of the descending stable sort *)

Section SortedFacts.
Context {A : Type} (key : A -> float).

Lemma insert_desc_perm x l : insert_desc key x l ≡ₚ x :: l.
Proof.
  induction l as [|y l IH]; simpl; [done|].
  destruct (ltb (key x) (key y)); [|done].
  rewrite IH. apply Permutation_swap.
Qed.

Lemma sorted_reverse_perm l : sorted_reverse key l ≡ₚ l.
Proof.
  induction l as [|x l IH]; simpl; [done|].
  rewrite insert_desc_perm. by f_equiv.
Qed.

Lemma sorted_reverse_length l : length (sorted_reverse key l) = length l.
Proof. by rewrite sorted_reverse_perm. Qed.

Lemma insert_desc_sorted x l :
  Forall (fun a => is_nan (key a) = false) (x :: l) ->
  StronglySorted (key_desc key) l -> StronglySorted (key_desc key) (insert_desc key x l).
Proof.
  intros Hnan Hl. induction Hl as [|y l Hl IH Hy]; simpl.
  - repeat constructor.
  - inversion Hnan as [|? ? Hx Hnan']; subst.
    inversion Hnan' as [|? ? Hny Hnl]; subst.
    destruct (ltb (key x) (key y)) eqn:Hxy.
    + constructor; [apply IH; by constructor|].
      rewrite insert_desc_perm. constructor; [|done].
      by apply ltb_asym.
    + constructor; [by constructor|]. constructor; [done|].
      eapply Forall_impl; [exact Hy|]. intros z Hz.
      by eapply ltb_neg_trans.
Qed.

Lemma sorted_reverse_sorted l :
  Forall (fun a => is_nan (key a) = false) l ->
  StronglySorted (key_desc key) (sorted_reverse key l).
Proof.
  induction 1 as [|x l Hx Hl IH]; simpl; [constructor|].
  apply insert_desc_sorted; [|done].
  constructor; [done|]. by rewrite sorted_reverse_perm.
Qed.

(** Stability: the elements whose key compares equal to [k] come out in
    the order they went in. *)
Lemma insert_desc_stable k x l :
  List.filter (fun a => eqb (key a) k) (insert_desc key x l) =
  List.filter (fun a => eqb (key a) k) (x :: l).
Proof.
  induction l as [|y l IH]; [done|].
  cbn [insert_desc]. destruct (ltb (key x) (key y)) eqn:Hxy; [|done].
  cbn [List.filter] in *. rewrite IH.
  destruct (eqb (key x) k) eqn:Hx; [|done].
  by rewrite (eqb_ltb_l _ _ _ Hx Hxy).
Qed.

Lemma sorted_reverse_stable k l :
  List.filter (fun a => eqb (key a) k) (sorted_reverse key l) =
  List.filter (fun a => eqb (key a) k) l.
Proof.
  induction l as [|x l IH]; [done|].
  cbn [sorted_reverse foldr]. rewrite insert_desc_stable.
  cbn [List.filter]. fold (sorted_reverse key l). by rewrite IH.
Qed.

(** When no key is smaller than another, the sort changes nothing. *)
Lemma sorted_reverse_id l :
  (∀ a b, a ∈ l -> b ∈ l -> ltb (key a) (key b) = false) ->
  sorted_reverse key l = l.
Proof.
  induction l as [|x l IH]; intros H; [done|].
  cbn [sorted_reverse foldr]. fold (sorted_reverse key l).
  rewrite IH by (intros; apply H; by right).
  destruct l as [|y l]; [done|]. simpl.
  rewrite H; [done|by left|right; by left].
Qed.



End SortedFacts.

(** ** scikit-learn's input checks *)

Lemma bounded_by_finite k x : bounded_by k x -> is_finite x = true.
Proof. by destruct x. Qed.

Lemma bounded_by_not_nan k x : bounded_by k x -> is_nan x = false.
Proof. by destruct x. Qed.

Lemma int64_of_int z : int64 z -> bounded_by 65 (of_int z).
Proof.
  unfold int64. intros Hz. apply of_int_bound.
  change (2 ^ 63) with 9223372036854775808. lia.
Qed.

Lemma valid_row_bounded row :
  valid_row row -> Forall (bounded_by 65) (of_int <$> row).
Proof.
  intros [_ Hrow]. rewrite Forall_fmap.
  eapply Forall_impl; [exact Hrow|]. intros z Hz. by apply int64_of_int.
Qed.


Lemma check_array_valid row :
  valid_row row -> Sklearn.check_array row = Ok (of_int <$> row).
Proof.
  intros Hrow. pose proof (valid_row_bounded _ Hrow) as Hb.
  destruct Hrow as [Hne _]. unfold Sklearn.check_array.
  case_bool_decide as Hnil; [by destruct row|].
  replace (forallb is_finite (of_int <$> row)) with true; [done|].
  symmetry. apply Is_true_true, forallb_True.
  eapply Forall_impl; [exact Hb|]. intros x Hx. simpl.
  by rewrite (bounded_by_finite _ _ Hx).
Qed.




Lemma cosine_similarity_valid X Y :
  valid_row X -> valid_row Y -> length X = length Y ->
  Sklearn.cosine_similarity X Y =
    Ok (Sklearn.dot (Sklearn.normalize (of_int <$> X)) (Sklearn.normalize (of_int <$> Y))).
Proof.
  intros HX HY Hlen. unfold Sklearn.cosine_similarity, Sklearn.check_pairwise_arrays.
  rewrite (check_array_valid _ HX), (check_array_valid _ HY). simpl.
  rewrite !length_fmap. by rewrite bool_decide_true.
Qed.

(** ** The scoring loop and the title lookup *)


Lemma score_Ok user_prefs c p :
  score user_prefs c = Ok p <->
  p.1 = Content.id c ∧
  Sklearn.cosine_similarity user_prefs (Content.features c) = Ok p.2.
Proof.
  unfold score. destruct p as [i s]; simpl.
  destruct (Sklearn.cosine_similarity _ _) as [s'|e'] eqn:Hs; simpl.
  - split; [by intros [= <- <-]|]. by intros [-> [= ->]].
  - split; [done|]. by intros [_ ?].
Qed.

Lemma similarities_consistent contents user_prefs :
  consistent user_prefs contents ->
  ∃ sims, similarities contents user_prefs = Ok sims.
Proof.
  intros [Hu Hc]. apply for_each_total.
  eapply Forall_impl; [exact Hc|]. intros c [Hv Hlen]. simpl in *.
  unfold score. rewrite cosine_similarity_valid by done. by eexists.
Qed.

Lemma similarities_ids contents user_prefs sims :
  similarities contents user_prefs = Ok sims -> sims.*1 = Content.id <$> contents.
Proof.
  intros H%for_each_Ok. induction H as [|c p cs ps Hp _ IH]; [done|].
  apply score_Ok in Hp as [Hp _]. rewrite !fmap_cons. congruence.
Qed.

Lemma similarities_comparable contents user_prefs sims :
  comparable user_prefs contents ->
  similarities contents user_prefs = Ok sims ->
  Forall (fun p => is_nan p.2 = false) sims.
Proof.
  intros Hcmp H%for_each_Ok. apply Forall_forall. intros p Hp.
  apply list_elem_of_lookup in Hp as [i Hi].
  destruct (Forall2_lookup_r _ _ _ _ _ H Hi) as (c & Hc & Hsc).
  apply score_Ok in Hsc as [_ Hsc].
  eapply Hcmp; [|exact Hsc]. by eapply list_elem_of_lookup_2.
Qed.

Lemma next_title_Ok contents i :
  i ∈ Content.id <$> contents ->
  ∃ c, c ∈ contents ∧ Content.id c = i ∧ next_title contents i = Ok (Content.title c).
Proof.
  intros Hin. unfold next_title. induction contents as [|c cs IH]; simpl in *.
  - by apply elem_of_nil in Hin.
  - destruct (Content.id c =? i) eqn:Hc.
    + exists c. apply Z.eqb_eq in Hc. split; [by left|done].
    + apply elem_of_cons in Hin as [Hin|Hin]; [apply Z.eqb_neq in Hc; congruence|].
      destruct (IH Hin) as (c' & Hc' & Hid & Hn). exists c'. split; [by right|done].
Qed.

Lemma next_title_NoDup contents c :
  NoDup (Content.id <$> contents) -> c ∈ contents ->
  next_title contents (Content.id c) = Ok (Content.title c).
Proof.
  intros Hnd Hin. unfold next_title. induction contents as [|c' cs IH]; simpl in *.
  - by apply elem_of_nil in Hin.
  - apply NoDup_cons in Hnd as [Hc' Hnd].
    destruct (Content.id c' =? Content.id c) eqn:Hc.
    + apply Z.eqb_eq in Hc. apply elem_of_cons in Hin as [->|Hin]; [done|].
      exfalso. apply Hc'. rewrite Hc. by apply list_elem_of_fmap_2.
    + apply elem_of_cons in Hin as [->|Hin]; [by rewrite Z.eqb_refl in Hc|].
      by apply IH.
Qed.

Lemma rec_titles_Ok contents top :
  top.*1 ⊆ Content.id <$> contents ->
  ∃ titles, rec_titles contents top = Ok titles ∧
    Forall2 (fun p t => ∃ c, c ∈ contents ∧ Content.id c = p.1 ∧ Content.title c = t)
      top titles.
Proof.
  intros Hsub. unfold rec_titles. induction top as [|p top IH]; simpl.
  - exists []. split; [done|constructor].
  - destruct (next_title_Ok contents p.1) as (c & Hc & Hid & Hn).
    { apply Hsub. by left. }
    destruct IH as (ts & Hts & Hall).
    { intros i Hi. apply Hsub. by right. }
    rewrite Hn. simpl. rewrite Hts. simpl.
    exists (Content.title c :: ts). split; [done|]. constructor; [|done]. by exists c.
Qed.

Lemma top_recs_ids sims : (top_recs sims).*1 ⊆ sims.*1.
Proof.
  intros i Hi. unfold top_recs in Hi.
  apply list_elem_of_fmap in Hi as (p & -> & Hp).
  apply list_elem_of_fmap_2.
  apply elem_of_take in Hp as (k & Hp & _).
  apply list_elem_of_lookup_2 in Hp. by rewrite sorted_reverse_perm in Hp.
Qed.

Lemma top_recs_length sims : length (top_recs sims) = (3 `min` length sims)%nat.
Proof. unfold top_recs. by rewrite length_take, sorted_reverse_length. Qed.

(** The three steps of the view function for a user that is found. *)
Lemma recommend_on_found users contents d n u sims titles :
  dict_get d "user_id" = PyInt n -> users !! n = Some u ->
  similarities contents (User.preferences u) = Ok sims ->
  rec_titles contents (top_recs sims) = Ok titles ->
  recommend_on users contents (PyDict d) = Ok (recommendations titles).
Proof.
  intros Hd Hu Hs Ht. unfold recommend_on. simpl. rewrite Hd. simpl.
  rewrite Hu. simpl. rewrite Hs. simpl. by rewrite Ht.
Qed.

Lemma recommend_on_Raise users contents d n u e :
  dict_get d "user_id" = PyInt n -> users !! n = Some u ->
  similarities contents (User.preferences u) = Raise e ->
  recommend_on users contents (PyDict d) = Raise e.
Proof.
  intros Hd Hu Hs. unfold recommend_on. simpl. rewrite Hd. simpl.
  rewrite Hu. simpl. by rewrite Hs.
Qed.

Lemma recommend_on_ranked users contents d n u :
  dict_get d "user_id" = PyInt n -> users !! n = Some u ->
  consistent (User.preferences u) contents ->
  ∃ sims titles,
    similarities contents (User.preferences u) = Ok sims ∧
    rec_titles contents (top_recs sims) = Ok titles ∧
    Forall2 (fun p t => ∃ c, c ∈ contents ∧ Content.id c = p.1 ∧ Content.title c = t)
      (top_recs sims) titles ∧
    recommend_on users contents (PyDict d) = Ok (recommendations titles).
Proof.
  intros Hd Hu Hc. destruct (similarities_consistent _ _ Hc) as [sims Hs].
  destruct (rec_titles_Ok contents (top_recs sims)) as (titles & Ht & Hall).
  { rewrite <-(similarities_ids _ _ _ Hs). apply top_recs_ids. }
  exists sims, titles. repeat split; try done.
  by eapply recommend_on_found.
Qed.

(** ** No overflow and no NaN in the scores *)

Lemma dot_self_sign acc a :
  sign_is false acc -> Forall (bounded_by 65) a ->
  sign_is false (foldl (fun acc p => add acc (mul p.1 p.2)) acc (zip a a)).
Proof.
  intros Hacc Ha. revert acc Hacc.
  induction Ha as [|x a Hx _ IH]; intros acc Hacc; [done|]. simpl.
  apply IH. apply add_sign; [done|]. apply mul_self_sign. by destruct x.
Qed.

Lemma row_norms_sign a :
  Forall (bounded_by 65) a -> sign_is false (Sklearn.row_norms a).
Proof. intros Ha. apply sqrt_sign. by apply dot_self_sign. Qed.

Lemma ten_eps : mul (of_int 10) eps = S754_finite false 5629499534213120 (-101).
Proof. vm_compute. reflexivity. Qed.

Lemma handle_zeros_norm_ok n :
  sign_is false n -> norm_ok (Sklearn.handle_zeros_in_scale n).
Proof.
  unfold Sklearn.handle_zeros_in_scale. rewrite ten_eps.
  destruct n as [s|s| |s m e]; cbn [sign_is]; intros Hs; [| |contradiction|]; subst s.
  - cbv [ltb SFltb SFcompare]. unfold one. cbn [norm_ok]. lia.
  - cbv [ltb SFltb SFcompare]. exact I.
  - destruct (ltb (S754_finite false m e) _) eqn:Hlt.
    + unfold one. cbn [norm_ok]. lia.
    + cbn [norm_ok]. revert Hlt. unfold ltb, SFltb, SFcompare.
      destruct (Z.compare_spec e (-101)); intros Hlt; first [lia|discriminate Hlt].
Qed.

Lemma normalize_bounded a :
  Forall (bounded_by 65) a -> Forall (bounded_by 167) (Sklearn.normalize a).
Proof.
  intros Ha. unfold Sklearn.normalize. rewrite Forall_fmap.
  pose proof (handle_zeros_norm_ok _ (row_norms_sign _ Ha)) as Hn.
  eapply Forall_impl; [exact Ha|]. intros x Hx. simpl.
  by apply (div_bound 65).
Qed.

Lemma dot_bounded k acc a b :
  335 <= k -> k + 2 * Z.of_nat (length a) <= 1024 ->
  bounded_by k acc ->
  Forall (bounded_by 167) a -> Forall (bounded_by 167) b ->
  bounded_by (k + 2 * Z.of_nat (length a))
    (foldl (fun acc p => add acc (mul p.1 p.2)) acc (zip a b)).
Proof.
  intros Hk Hlen Hacc Ha. revert k acc b Hk Hlen Hacc.
  induction Ha as [|x a Hx _ IH]; intros k acc b Hk Hlen Hacc Hb.
  - cbn [length zip zip_with foldl]. eapply bounded_by_mono; [|exact Hacc]. lia.
  - destruct Hb as [|y b Hy Hb].
    { cbn [zip zip_with foldl]. eapply bounded_by_mono; [|exact Hacc]. lia. }
    cbn [zip zip_with foldl]. rewrite length_cons, Nat2Z.inj_succ in *.
    replace (k + 2 * Z.succ (Z.of_nat (length a)))
      with (k + 2 + 2 * Z.of_nat (length a)) by lia.
    apply IH; [lia|lia| |done]. cbn [fst snd].
    apply add_bound; [lia|lia|done|].
    apply (bounded_by_mono (167 + 167 + 1)); [lia|]. by apply mul_bound.
Qed.

(** The cosine similarity of two rows of 64-bit integers, of a common
    length of at most [max_features], is a finite binary64 value. *)
Lemma cosine_similarity_bounded X Y :
  valid_row X -> valid_row Y -> length X = length Y ->
  (length X <= max_features)%nat ->
  ∃ s, Sklearn.cosine_similarity X Y = Ok s ∧ bounded_by 847 s.
Proof.
  intros HX HY Hlen Hmax. rewrite cosine_similarity_valid by done.
  eexists. split; [done|]. unfold Sklearn.dot.
  pose proof (normalize_bounded _ (valid_row_bounded _ HX)) as HbX.
  pose proof (normalize_bounded _ (valid_row_bounded _ HY)) as HbY.
  assert (HlenX : length (Sklearn.normalize (of_int <$> X)) = length X).
  { unfold Sklearn.normalize. by rewrite !length_fmap. }
  unfold max_features in Hmax.
  apply (bounded_by_mono (335 + 2 * Z.of_nat (length (Sklearn.normalize (of_int <$> X))))); [lia|].
  apply dot_bounded; [lia|lia|done|done|done].
Qed.

Lemma consistent_comparable user_prefs contents :
  consistent user_prefs contents -> (length user_prefs <= max_features)%nat ->
  comparable user_prefs contents.
Proof.
  intros [Hu Hc] Hmax c s Hin Hs. rewrite Forall_forall in Hc.
  destruct (Hc c Hin) as [Hv Hlen].
  destruct (cosine_similarity_bounded user_prefs (Content.features c))
    as (s' & Hs' & Hb); [done..|].
  rewrite Hs in Hs'. injection Hs' as ->. by eapply bounded_by_not_nan.
Qed.

Lemma valid_row_finite_direction X : valid_row X -> finite_direction X.
Proof.
  intros HX. unfold finite_direction.
  eapply Forall_impl; [exact (normalize_bounded _ (valid_row_bounded _ HX))|].
  intros x Hx. by eapply bounded_by_finite.
Qed.

(** ** Facts about the two datasets of the program *)

Ltac fixture_rows :=
  repeat first
    [ split
    | progress (apply Forall_cons)
    | apply Forall_nil
    | done
    | by vm_compute
    | unfold int64; lia ].

Lemma fixture_user1 : users !! 1 = Some (User.mk [5; 4; 0; 0; 5]).
Proof. by vm_compute. Qed.

Lemma fixture_user2 : users !! 2 = Some (User.mk [0; 0; 5; 4; 3]).
Proof. by vm_compute. Qed.

Lemma fixture_consistent1 : consistent [5; 4; 0; 0; 5] contents.
Proof. unfold consistent, valid_row, contents. fixture_rows. Qed.

Lemma fixture_consistent2 : consistent [0; 0; 5; 4; 3] contents.
Proof. unfold consistent, valid_row, contents. fixture_rows. Qed.

Lemma fixture_ids_NoDup : NoDup (Content.id <$> contents).
Proof. apply (bool_decide_unpack _). by vm_compute. Qed.

(** ** Bounded output *)

(** C3. For a user of the dataset, over datasets that satisfy the data
    model's invariant, the endpoint answers 200 with a list of titles whose
    length is min(3, size of the catalog). *)
Theorem recommend_length users contents d n u :
  dict_get d "user_id" = PyInt n -> users !! n = Some u ->
  consistent (User.preferences u) contents ->
  ∃ titles,
    recommend_on users contents (PyDict d) = Ok (recommendations titles) ∧
    length titles = (3 `min` length contents)%nat.
Proof.
  intros Hd Hu Hc.
  destruct (recommend_on_ranked _ _ _ _ _ Hd Hu Hc) as (sims & titles & Hs & Ht & _ & Hr).
  exists titles. split; [done|].
  rewrite (for_each_length _ _ _ Ht), top_recs_length.
  by rewrite (for_each_length _ _ _ Hs).
Qed.

Lemma recommend_length_witness :
  ∃ titles,
    recommend (request_for 1) = Ok (recommendations titles) ∧
    length titles = (3 `min` length contents)%nat.
Proof.
  apply (recommend_length users contents [("user_id", PyInt 1)] 1
           (User.mk [5; 4; 0; 0; 5])).
  - reflexivity.
  - exact fixture_user1.
  - exact fixture_consistent1.
Defined.

(** ** Descending order with stable ties *)

(** C4. For a user of the dataset, over datasets that satisfy the data
    model's invariant, the (id, similarity) pairs are sorted by decreasing
    similarity, pairs of equal similarity keep their catalog order, and the
    titles returned are those of the first three pairs, in that order. *)
Theorem recommend_descending_stable users contents d n u :
  dict_get d "user_id" = PyInt n -> users !! n = Some u ->
  consistent (User.preferences u) contents ->
  (length (User.preferences u) <= max_features)%nat ->
  ∃ sims titles,
    similarities contents (User.preferences u) = Ok sims ∧
    sims.*1 = Content.id <$> contents ∧
    sorted_reverse snd sims ≡ₚ sims ∧
    StronglySorted descending (sorted_reverse snd sims) ∧
    (∀ s, List.filter (tied s) (sorted_reverse snd sims) = List.filter (tied s) sims) ∧
    Forall2 (fun p t => ∃ c, c ∈ contents ∧ Content.id c = p.1 ∧ Content.title c = t)
      (take 3 (sorted_reverse snd sims)) titles ∧
    recommend_on users contents (PyDict d) = Ok (recommendations titles).
Proof.
  intros Hd Hu Hc Hmax.
  pose proof (consistent_comparable _ _ Hc Hmax) as Hcmp.
  destruct (recommend_on_ranked _ _ _ _ _ Hd Hu Hc) as (sims & titles & Hs & Ht & Hall & Hr).
  exists sims, titles. split; [done|]. split; [by eapply similarities_ids|].
  split; [apply sorted_reverse_perm|]. split.
  { apply (sorted_reverse_sorted snd). by eapply similarities_comparable. }
  split; [intros s; apply (sorted_reverse_stable snd)|]. done.
Qed.

Lemma recommend_descending_stable_witness :
  ∃ sims titles,
    similarities contents [5; 4; 0; 0; 5] = Ok sims ∧
    sims.*1 = Content.id <$> contents ∧
    sorted_reverse snd sims ≡ₚ sims ∧
    StronglySorted descending (sorted_reverse snd sims) ∧
    (∀ s, List.filter (tied s) (sorted_reverse snd sims) = List.filter (tied s) sims) ∧
    Forall2 (fun p t => ∃ c, c ∈ contents ∧ Content.id c = p.1 ∧ Content.title c = t)
      (take 3 (sorted_reverse snd sims)) titles ∧
    recommend (request_for 1) = Ok (recommendations titles).
Proof.
  apply (recommend_descending_stable users contents [("user_id", PyInt 1)] 1
           (User.mk [5; 4; 0; 0; 5])).
  - reflexivity.
  - exact fixture_user1.
  - exact fixture_consistent1.
  - unfold max_features. simpl. lia.
Defined.

(** ** Unknown user *)

(** C5. When the identifier of the request is a hashable value that equals
    no key of the User dataset, the endpoint answers 404 with a body whose
    only field is [error]; it raises nothing and returns no title list. *)
Theorem recommend_unknown_user users contents d v :
  dict_get d "user_id" = v -> hashable v = true ->
  (∀ n, int_of_key v = Some n -> users !! n = None) ->
  recommend_on users contents (PyDict d) = Ok not_found ∧
  status not_found = 404 ∧
  body not_found = PyDict [("error", PyStr "User not found")].
Proof.
  intros Hd Hh Hv. split; [|done].
  unfold recommend_on. simpl. rewrite Hd. unfold lookup_key. rewrite Hh. simpl.
  destruct (int_of_key v) as [n|] eqn:Hn; simpl; [|done].
  by rewrite (Hv n).
Qed.

Lemma recommend_unknown_user_witness :
  recommend (request_for 3) = Ok not_found ∧
  status not_found = 404 ∧
  body not_found = PyDict [("error", PyStr "User not found")].
Proof.
  apply (recommend_unknown_user users contents [("user_id", PyInt 3)] (PyInt 3)).
  - reflexivity.
  - reflexivity.
  - intros n [= <-]. by vm_compute.
Defined.

(** ** Vectors of different lengths *)



(** ** Determinism and absence of side effects *)


(** ** Request without [user_id] *)

(** C10. A JSON object without a [user_id] field takes the path of an
    unknown user: the identifier read is [None], which is no key of the
    User dataset, and the answer is the 404 "User not found" error. *)
Theorem recommend_missing_user_id users contents d :
  ¬ has_key d "user_id" ->
  py_get (PyDict d) "user_id" = Ok PyNone ∧
  lookup_key users PyNone = Ok None ∧
  recommend_on users contents (PyDict d) = Ok not_found.
Proof.
  intros Hk.
  assert (Hd : dict_get d "user_id" = PyNone).
  { unfold has_key in Hk. induction d as [|[k v] d IH]; [done|]. simpl.
    destruct (String.eqb k "user_id") eqn:Hkv.
    - apply String.eqb_eq in Hkv. subst. exfalso. apply Hk. by left.
    - apply IH. intros Hin. apply Hk. by right. }
  repeat split.
  - simpl. by rewrite Hd.
  - unfold recommend_on. simpl. by rewrite Hd.
Qed.

Lemma recommend_missing_user_id_witness :
  py_get (PyDict [("name", PyStr "ann")]) "user_id" = Ok PyNone ∧
  lookup_key users PyNone = Ok None ∧
  recommend (PyDict [("name", PyStr "ann")]) = Ok not_found.
Proof.
  apply (recommend_missing_user_id users contents [("name", PyStr "ann")]).
  unfold has_key. simpl. intros H. apply list_elem_of_singleton in H. discriminate H.
Defined.

(** ** The two scenarios on the datasets of the program *)

(** C1, as stated: the scores of user 1 are not 0.928 and 0.640, even with
    a tolerance of a hundredth. *)
Lemma user1_scores_not_as_stated :
  ¬ ∃ u s1 s2 s3 s4 s5,
      users !! 1 = Some u ∧
      similarities contents (User.preferences u) =
        Ok [(1, s1); (2, s2); (3, s3); (4, s4); (5, s5)] ∧
      within (1 # 100) s1 (928 # 1000) = true ∧
      within (1 # 100) s2 (640 # 1000) = true ∧
      within (1 # 100) s3 0 = true ∧
      within (1 # 100) s4 0 = true ∧
      within (1 # 100) s5 (928 # 1000) = true ∧
      recommend (request_for 1) =
        Ok (recommendations ["Action Adventure"; "Fantasy Tale"; "Sci-Fi Epic"]).
Proof.
  intros (u & s1 & s2 & s3 & s4 & s5 & Hu & Hs & H1 & _).
  rewrite fixture_user1 in Hu. injection Hu as <-.
  vm_compute in Hs. injection Hs as <- <- <- <- <-.
  vm_compute in H1. discriminate H1.
Qed.

(** C1, amended. For user 1 (preferences [5,4,0,0,5]) the scores are 0.870
    for id 1, 0.783 for id 2, zero for ids 3 and 4, and for id 5 the very
    score of id 1; the sort puts id 1 before id 5 and the answer is
    ["Action Adventure", "Fantasy Tale", "Sci-Fi Epic"]. *)
Theorem user1_scores_and_titles :
  ∃ u s1 s2 s3 s4 s5,
    users !! 1 = Some u ∧ User.preferences u = [5; 4; 0; 0; 5] ∧
    similarities contents (User.preferences u) =
      Ok [(1, s1); (2, s2); (3, s3); (4, s4); (5, s5)] ∧
    within (1 # 2000) s1 (870 # 1000) = true ∧
    within (1 # 2000) s2 (783 # 1000) = true ∧
    is_zero s3 = true ∧ is_zero s4 = true ∧ s5 = s1 ∧
    sorted_reverse snd [(1, s1); (2, s2); (3, s3); (4, s4); (5, s5)] =
      [(1, s1); (5, s5); (2, s2); (3, s3); (4, s4)] ∧
    recommend (request_for 1) =
      Ok (recommendations ["Action Adventure"; "Fantasy Tale"; "Sci-Fi Epic"]).
Proof.
  exists (User.mk [5; 4; 0; 0; 5]),
    (S754_finite false 7839760664956100 (-53)),
    (S754_finite false 7055784598460490 (-53)),
    (S754_zero false), (S754_zero false),
    (S754_finite false 7839760664956100 (-53)).
  split; [exact fixture_user1|]. repeat split; by vm_compute.
Qed.

(** C2, as stated: for user 2 the scores of ids 1, 2 and 5 are not 0. *)
Lemma user2_scores_not_as_stated :
  ¬ ∃ u s1 s2 s3 s4 s5 title2 title3,
      users !! 2 = Some u ∧
      similarities contents (User.preferences u) =
        Ok [(1, s1); (2, s2); (3, s3); (4, s4); (5, s5)] ∧
      take 2 (sorted_reverse snd [(1, s1); (2, s2); (3, s3); (4, s4); (5, s5)]) =
        [(3, s3); (4, s4)] ∧
      eqb s1 zero = true ∧ eqb s2 zero = true ∧ eqb s5 zero = true ∧
      recommend (request_for 2) =
        Ok (recommendations ["Comedy Special"; title2; title3]).
Proof.
  intros (u & s1 & s2 & s3 & s4 & s5 & t2 & t3 & Hu & Hs & _ & H1 & _).
  rewrite fixture_user2 in Hu. injection Hu as <-.
  vm_compute in Hs. injection Hs as <- <- <- <- <-.
  vm_compute in H1. discriminate H1.
Qed.

(** C2, amended. For user 2 (preferences [0,0,5,4,3]) id 3 ranks first
    with 0.900 and id 4 second with 0.707; ids 1, 2 and 5 share the score
    0.300, which is not zero; the answer is
    ["Comedy Special", "Drama Series", "Action Adventure"]. *)
Theorem user2_scores_and_titles :
  ∃ u s1 s2 s3 s4 s5,
    users !! 2 = Some u ∧ User.preferences u = [0; 0; 5; 4; 3] ∧
    similarities contents (User.preferences u) =
      Ok [(1, s1); (2, s2); (3, s3); (4, s4); (5, s5)] ∧
    within (1 # 2000) s3 (900 # 1000) = true ∧
    within (1 # 2000) s4 (707 # 1000) = true ∧
    within (1 # 2000) s1 (300 # 1000) = true ∧ s2 = s1 ∧ s5 = s1 ∧
    eqb s1 zero = false ∧
    sorted_reverse snd [(1, s1); (2, s2); (3, s3); (4, s4); (5, s5)] =
      [(3, s3); (4, s4); (1, s1); (2, s2); (5, s5)] ∧
    recommend (request_for 2) =
      Ok (recommendations ["Comedy Special"; "Drama Series"; "Action Adventure"]).
Proof.
  exists (User.mk [0; 0; 5; 4; 3]),
    (S754_finite false 5404319552844595 (-54)),
    (S754_finite false 5404319552844595 (-54)),
    (S754_finite false 8106479329266892 (-53)),
    (S754_finite false 6369051672525772 (-53)),
    (S754_finite false 5404319552844595 (-54)).
  split; [exact fixture_user2|]. repeat split; by vm_compute.
Qed.

(** ** Zero vectors *)

Lemma mul_zero_l (x y : float) :
  is_zero x = true -> is_finite y = true -> is_zero (mul x y) = true.
Proof. by destruct x, y. Qed.

Lemma mul_zero_r (x y : float) :
  is_finite x = true -> is_zero y = true -> is_zero (mul x y) = true.
Proof. by destruct x, y. Qed.

Lemma add_zero_zero (x y : float) :
  is_zero x = true -> is_zero y = true -> is_zero (add x y) = true.
Proof. by destruct x as [[]| | |], y as [[]| | |]. Qed.

Lemma of_int_all_zero X : all_zero X -> of_int <$> X = replicate (length X) zero.
Proof. induction 1 as [|z X -> _ IH]; [done|]. by rewrite fmap_cons, IH. Qed.

Lemma dot_zero_l acc a b :
  is_zero acc = true ->
  Forall (fun x => is_zero x = true) a -> Forall (fun y => is_finite y = true) b ->
  is_zero (foldl (fun acc p => add acc (mul p.1 p.2)) acc (zip a b)) = true.
Proof.
  intros Hacc Ha. revert acc b Hacc.
  induction Ha as [|x a Hx _ IH]; intros acc b Hacc Hb; [done|].
  destruct Hb as [|y b Hy Hb]; [done|]. simpl.
  apply IH; [|done]. apply add_zero_zero; [done|]. by apply mul_zero_l.
Qed.

Lemma dot_zero_r acc a b :
  is_zero acc = true ->
  Forall (fun x => is_finite x = true) a -> Forall (fun y => is_zero y = true) b ->
  is_zero (foldl (fun acc p => add acc (mul p.1 p.2)) acc (zip a b)) = true.
Proof.
  intros Hacc Ha. revert acc b Hacc.
  induction Ha as [|x a Hx _ IH]; intros acc b Hacc Hb; [done|].
  destruct Hb as [|y b Hy Hb]; [done|]. simpl.
  apply IH; [|done]. apply add_zero_zero; [done|]. by apply mul_zero_r.
Qed.

(** The norm of a row of zeros is exactly zero; [normalize] then divides
    by one and leaves the row as it is. *)
Lemma row_norms_zeros n : Sklearn.row_norms (replicate n zero) = zero.
Proof.
  unfold Sklearn.row_norms, Sklearn.dot.
  assert (H : foldl (fun acc p => add acc (mul p.1 p.2)) zero
                (zip (replicate n zero) (replicate n zero)) = zero).
  { induction n as [|n IH]; [done|]. simpl. exact IH. }
  by rewrite H.
Qed.

Lemma normalize_zeros n : Sklearn.normalize (replicate n zero) = replicate n zero.
Proof.
  unfold Sklearn.normalize. rewrite row_norms_zeros.
  change (Sklearn.handle_zeros_in_scale zero) with one.
  by rewrite fmap_replicate.
Qed.

Lemma Forall_replicate_zero n : Forall (fun x : float => is_zero x = true) (replicate n zero).
Proof. by apply Forall_replicate. Qed.

Lemma cosine_similarity_zero X Y :
  valid_row X -> valid_row Y -> length X = length Y ->
  all_zero X ∨ all_zero Y ->
  ∃ s, Sklearn.cosine_similarity X Y = Ok s ∧ is_zero s = true.
Proof.
  intros HX HY Hlen Hz. rewrite cosine_similarity_valid by done.
  pose proof (valid_row_finite_direction _ HX) as HfX.
  pose proof (valid_row_finite_direction _ HY) as HfY.
  eexists. split; [done|]. unfold Sklearn.dot. destruct Hz as [Hz|Hz].
  - rewrite (of_int_all_zero _ Hz), normalize_zeros.
    apply dot_zero_l; [done|apply Forall_replicate_zero|exact HfY].
  - rewrite (of_int_all_zero _ Hz), normalize_zeros.
    apply dot_zero_r; [done|exact HfX|apply Forall_replicate_zero].
Qed.

Lemma rec_titles_catalog contents cs (top : list (Z * float)) :
  NoDup (Content.id <$> contents) -> cs ⊆ contents ->
  Forall2 (fun c p => p.1 = Content.id c) cs top ->
  rec_titles contents top = Ok (Content.title <$> cs).
Proof.
  intros Hnd Hsub H. unfold rec_titles.
  induction H as [|c p cs top Hp _ IH]; [done|]. simpl.
  rewrite Hp, next_title_NoDup; [|done|apply Hsub; by left]. simpl.
  rewrite IH; [done|]. intros c' Hc'. apply Hsub. by right.
Qed.

Lemma similarities_Forall2 contents user_prefs sims :
  similarities contents user_prefs = Ok sims ->
  Forall2 (fun c p => p.1 = Content.id c) contents sims.
Proof.
  intros H%for_each_Ok. eapply Forall2_impl; [exact H|].
  intros c p Hp. by apply score_Ok in Hp as [Hp _].
Qed.

(** C7. Scoring a pair of vectors one of which is all zeros (Euclidean
    norm exactly zero) raises nothing and gives a zero score; for a user
    whose preferences are all zeros every score is zero and the titles
    returned are those of the first min(3, size of the catalog) entries,
    in catalog order. *)
Theorem zero_vector_scores :
  (∀ X Y,
     valid_row X -> valid_row Y -> length X = length Y ->
     all_zero X ∨ all_zero Y ->
     ∃ s, Sklearn.cosine_similarity X Y = Ok s ∧ is_zero s = true) ∧
  (∀ users contents d n u,
     dict_get d "user_id" = PyInt n -> users !! n = Some u ->
     all_zero (User.preferences u) ->
     consistent (User.preferences u) contents ->
     NoDup (Content.id <$> contents) ->
     ∃ sims,
       similarities contents (User.preferences u) = Ok sims ∧
       Forall (fun p => is_zero p.2 = true) sims ∧
       recommend_on users contents (PyDict d) =
         Ok (recommendations (Content.title <$> take 3 contents)) ∧
       length (take 3 contents) = (3 `min` length contents)%nat).
Proof.
  split; [exact cosine_similarity_zero|].
  intros users contents d n u Hd Hu Hz [Hv Hc] Hnd.
  destruct (similarities_consistent contents (User.preferences u)) as [sims Hs]; [done|].
  assert (Hzero : Forall (fun p => is_zero p.2 = true) sims).
  { apply Forall_forall. intros p Hp.
    apply list_elem_of_lookup in Hp as [i Hi].
    apply for_each_Ok in Hs as Hs2.
    destruct (Forall2_lookup_r _ _ _ _ _ Hs2 Hi) as (c & Hci & Hsc).
    apply score_Ok in Hsc as [_ Hsc].
    apply list_elem_of_lookup_2 in Hci.
    rewrite Forall_forall in Hc. destruct (Hc c Hci) as [Hvc Hlen].
    destruct (cosine_similarity_zero (User.preferences u) (Content.features c))
      as (s & Hs' & Hsz); [done|done|done|by left|].
    congruence. }
  exists sims. split; [done|]. split; [done|]. split; [|by rewrite length_take].
  eapply recommend_on_found; [done..|].
  unfold top_recs. rewrite sorted_reverse_id.
  - apply rec_titles_catalog; [done|apply sublist_subseteq, sublist_take|].
    apply Forall2_take. by eapply similarities_Forall2.
  - rewrite Forall_forall in Hzero. intros a b Ha Hb.
    apply ltb_zero_or_nan; left; by apply Hzero.
Qed.

Lemma zero_vector_scores_witness :
  (∃ s, Sklearn.cosine_similarity [0; 0; 0; 0; 0] [1; 0; 0; 0; 1] = Ok s ∧
        is_zero s = true) ∧
  (∃ sims,
     similarities contents [0; 0; 0; 0; 0] = Ok sims ∧
     Forall (fun p => is_zero p.2 = true) sims ∧
     recommend_on (<[3 := User.mk [0; 0; 0; 0; 0]]> users) contents (request_for 3) =
       Ok (recommendations (Content.title <$> take 3 contents)) ∧
     length (take 3 contents) = (3 `min` length contents)%nat).
Proof.
  split.
  - apply (proj1 zero_vector_scores [0; 0; 0; 0; 0] [1; 0; 0; 0; 1]).
    + unfold valid_row. fixture_rows.
    + unfold valid_row. fixture_rows.
    + reflexivity.
    + left. unfold all_zero. fixture_rows.
  - apply (proj2 zero_vector_scores (<[3 := User.mk [0; 0; 0; 0; 0]]> users) contents
             [("user_id", PyInt 3)] 3 (User.mk [0; 0; 0; 0; 0])).
    + reflexivity.
    + by vm_compute.
    + unfold all_zero. simpl. fixture_rows.
    + unfold consistent, valid_row, contents. simpl. fixture_rows.
    + exact fixture_ids_NoDup.
Defined.

(** ** Items parallel to the preference vector *)




(** * Further properties of the endpoint *)

(** ** Outcomes of a request *)



Lemma rec_titles_top_recs contents user_prefs sims :
  similarities contents user_prefs = Ok sims ->
  ∃ titles, rec_titles contents (top_recs sims) = Ok titles ∧
    Forall2 (fun p t => ∃ c, c ∈ contents ∧ Content.id c = p.1 ∧ Content.title c = t)
      (top_recs sims) titles.
Proof.
  intros Hs. apply rec_titles_Ok.
  rewrite <-(similarities_ids _ _ _ Hs). apply top_recs_ids.
Qed.



(** X2. Whenever a request is answered, the answer is the 404 error or a
    200 answer whose list holds min(3, size of the catalog) titles, each
    the title of a catalog entry. *)
Theorem recommend_on_returns users contents data r :
  recommend_on users contents data = Ok r ->
  r = not_found ∨
  ∃ titles, r = recommendations titles ∧
    length titles = (3 `min` length contents)%nat ∧
    Forall (fun t => ∃ c, c ∈ contents ∧ Content.title c = t) titles.
Proof.
  unfold recommend_on.
  destruct data as [| | | | | |d]; simpl; try done.
  unfold lookup_key.
  destruct (hashable (dict_get d "user_id")) eqn:Hh; simpl; [|done].
  destruct (int_of_key (dict_get d "user_id")) as [n|] eqn:Hn; simpl;
    [|intros [= <-]; by left].
  destruct (users !! n) as [u|] eqn:Hu; simpl; [|intros [= <-]; by left].
  destruct (similarities contents (User.preferences u)) as [sims|e'] eqn:Hs; simpl; [|done].
  destruct (rec_titles_top_recs _ _ _ Hs) as (titles & Ht & Hall).
  rewrite Ht. simpl. intros [= <-]. right. exists titles. split; [done|]. split.
  - rewrite (for_each_length _ _ _ Ht), top_recs_length.
    by rewrite (for_each_length _ _ _ Hs).
  - apply Forall_forall. intros t Hin.
    apply list_elem_of_lookup in Hin as [i Hi].
    destruct (Forall2_lookup_r _ _ _ _ _ Hall Hi) as (p & _ & c & Hc & _ & Ht').
    by exists c.
Qed.

Lemma recommend_on_returns_witness :
  recommendations ["Action Adventure"; "Fantasy Tale"; "Sci-Fi Epic"] = not_found ∨
  ∃ titles,
    recommendations ["Action Adventure"; "Fantasy Tale"; "Sci-Fi Epic"] =
      recommendations titles ∧
    length titles = (3 `min` length contents)%nat ∧
    Forall (fun t => ∃ c, c ∈ contents ∧ Content.title c = t) titles.
Proof.
  apply (recommend_on_returns users contents (request_for 1)).
  by vm_compute.
Defined.

(** ** Which requests select the same user *)

Lemma same_key_same_answer users contents d1 d2 :
  hashable (dict_get d1 "user_id") = true ->
  hashable (dict_get d2 "user_id") = true ->
  int_of_key (dict_get d1 "user_id") = int_of_key (dict_get d2 "user_id") ->
  recommend_on users contents (PyDict d1) = recommend_on users contents (PyDict d2).
Proof.
  intros H1 H2 Hk. unfold recommend_on, lookup_key. simpl.
  by rewrite H1, H2, Hk.
Qed.

(** X3. The answer depends on the body only through the integer its
    [user_id] field is equal to: the other fields are ignored, and two
    hashable identifiers equal to the same integer ([1], [1.0], [True]), or
    both equal to none, get the same answer. *)
Theorem recommend_on_same_key users contents d1 d2 :
  hashable (dict_get d1 "user_id") = true ->
  hashable (dict_get d2 "user_id") = true ->
  int_of_key (dict_get d1 "user_id") = int_of_key (dict_get d2 "user_id") ->
  recommend_on users contents (PyDict d1) = recommend_on users contents (PyDict d2).
Proof. apply same_key_same_answer. Qed.

Lemma recommend_on_same_key_witness :
  recommend_on users contents (PyDict [("user_id", PyBool true); ("page", PyInt 2)]) =
  recommend_on users contents (PyDict [("user_id", PyInt 1)]).
Proof.
  apply (recommend_on_same_key users contents
           [("user_id", PyBool true); ("page", PyInt 2)] [("user_id", PyInt 1)]);
    reflexivity.
Defined.

(** The cast of an integer below 2^53 in absolute value is exact. *)
Lemma digits2_pos_bound m k :
  Z.pos m < 2 ^ k -> 0 <= k -> Z.pos (digits2_pos m) <= k.
Proof.
  intros Hm Hk. change (Z.pos (digits2_pos m)) with (Zdigits2 (Z.pos m)).
  apply Zdigits2_le; lia.
Qed.

Lemma binary_round_exact s m :
  Z.pos m < 2 ^ 53 ->
  ∃ m' e', binary_round prec emax s m 0 = S754_finite s m' e' ∧
    e' <= 0 ∧ Z.pos m' = Z.pos m * 2 ^ (- e').
Proof.
  intros Hm. pose proof (digits2_pos_bound m 53 Hm ltac:(lia)) as Hd.
  assert (Hd1 : 1 <= Z.pos (digits2_pos m)) by lia.
  unfold binary_round.
  pose proof (shl_align_spec m 0 (fexp prec emax (Z.pos (digits2_pos m) + 0))) as Hal.
  pose proof (shl_align_digits m 0 (fexp prec emax (Z.pos (digits2_pos m) + 0))) as Hdg.
  destruct (shl_align m 0 _) as [mz ez]. cbn [fst snd] in Hdg.
  destruct Hal as [He Hmz]. destruct Hdg as [Hdg _].
  rewrite fexp_unfold in He.
  assert (Hez : ez = Z.pos (digits2_pos m) - 53) by lia.
  assert (Hdz : Z.pos (digits2_pos mz) = 53) by lia.
  unfold binary_round_aux.
  assert (Hshr : ∀ l, shr_fexp prec emax (Z.pos mz) ez l
                      = (shr_record_of_loc (Z.pos mz) l, ez)).
  { intros l. unfold shr_fexp, shr. cbn [Zdigits2]. rewrite fexp_unfold.
    replace (Z.max (Z.pos (digits2_pos mz) + ez - 53) (-1074) - ez) with 0 by lia.
    reflexivity. }
  rewrite Hshr. cbn [shr_record_of_loc shr_m loc_of_shr_record round_nearest_even].
  rewrite Hshr. cbn [shr_record_of_loc shr_m].
  replace (ez <=? emax - prec) with true
    by (symmetry; apply Z.leb_le; unfold emax, prec; lia).
  exists mz, ez. split; [done|]. split; [lia|].
  exact Hmz.
Qed.

Lemma float_as_int_of_int n :
  Z.abs n < 2 ^ 53 -> float_as_int (of_int n) = Some n.
Proof.
  intros Hn. unfold of_int.
  destruct n as [|m|m]; cbn [binary_normalize]; [done| |].
  - destruct (binary_round_exact false m) as (m' & e' & -> & He & Hm); [lia|].
    cbn [float_as_int cond_Zopp].
    assert (Hp : 0 < 2 ^ (- e')) by (apply Z.pow_pos_nonneg; lia).
    destruct (0 <=? e') eqn:Hle.
    + apply Z.leb_le in Hle. replace e' with 0 in * by lia.
      change (2 ^ (- 0)) with 1 in Hm. change (2 ^ 0) with 1. f_equal. lia.
    + rewrite Hm, Z.mod_mul, Z.div_mul by lia. done.
  - destruct (binary_round_exact true m) as (m' & e' & -> & He & Hm); [lia|].
    cbn [float_as_int cond_Zopp].
    assert (Hp : 0 < 2 ^ (- e')) by (apply Z.pow_pos_nonneg; lia).
    destruct (0 <=? e') eqn:Hle.
    + apply Z.leb_le in Hle. replace e' with 0 in * by lia.
      change (2 ^ (- 0)) with 1 in Hm. change (2 ^ 0) with 1. f_equal. lia.
    + rewrite Hm, Z.mod_mul, Z.div_mul by lia. done.
Qed.

(** X4. An identifier sent as the float of an integer below 2^53 in
    absolute value (the JSON number [1.0] for [1]) is compared with the
    keys exactly and selects the user the integer selects. *)
Theorem recommend_on_float_id users contents n :
  Z.abs n < 2 ^ 53 ->
  recommend_on users contents (PyDict [("user_id", PyFloat (of_int n))]) =
  recommend_on users contents (request_for n).
Proof.
  intros Hn. apply same_key_same_answer; [done|done|].
  simpl. by apply float_as_int_of_int.
Qed.

Lemma recommend_on_float_id_witness :
  recommend_on users contents (PyDict [("user_id", PyFloat (of_int 2))]) =
  recommend_on users contents (request_for 2).
Proof.
  apply (recommend_on_float_id users contents 2). by vm_compute.
Defined.

(** ** What the first three pairs are *)

(** X5. No catalog entry that is left out of the answer has a higher
    score than an entry of the answer: the sorted pairs split into the
    (at most) three recommended pairs and the rest, and no recommended
    pair is below a pair of the rest. *)
Theorem top_recs_best (users : gmap Z User.t) contents d n u :
  dict_get d "user_id" = PyInt n -> users !! n = Some u ->
  consistent (User.preferences u) contents ->
  (length (User.preferences u) <= max_features)%nat ->
  ∃ sims rest,
    similarities contents (User.preferences u) = Ok sims ∧
    top_recs sims ++ rest ≡ₚ sims ∧
    (∀ p q, p ∈ top_recs sims -> q ∈ rest -> ltb p.2 q.2 = false).
Proof.
  intros Hd Hu Hc Hlen.
  pose proof (consistent_comparable _ _ Hc Hlen) as Hcmp.
  destruct (similarities_consistent _ _ Hc) as [sims Hs].
  exists sims, (drop 3 (sorted_reverse snd sims)). split; [done|].
  unfold top_recs. split.
  - by rewrite take_drop, sorted_reverse_perm.
  - intros p q Hp Hq.
    pose proof (sorted_reverse_sorted snd sims
                  (similarities_comparable _ _ _ Hcmp Hs)) as Hsorted.
    rewrite <-(take_drop 3 (sorted_reverse snd sims)) in Hsorted.
    by apply (StronglySorted_app_1_elem_of _ _ _ _ _ Hsorted).
Qed.

Lemma top_recs_best_witness :
  ∃ sims rest,
    similarities contents [5; 4; 0; 0; 5] = Ok sims ∧
    top_recs sims ++ rest ≡ₚ sims ∧
    (∀ p q, p ∈ top_recs sims -> q ∈ rest -> ltb p.2 q.2 = false).
Proof.
  apply (top_recs_best users contents [("user_id", PyInt 1)] 1
           (User.mk [5; 4; 0; 0; 5])).
  - reflexivity.
  - exact fixture_user1.
  - exact fixture_consistent1.
  - unfold max_features. simpl. lia.
Defined.

(** X6. Every score the loop computes for vectors of 64-bit integers (of
    one length, at most [max_features]) is a finite binary64 number:
    neither NaN nor infinite, so the scoring loop raises nothing. *)
Theorem similarities_finite contents user_prefs :
  consistent user_prefs contents ->
  (length user_prefs <= max_features)%nat ->
  ∃ sims,
    similarities contents user_prefs = Ok sims ∧
    length sims = length contents ∧
    Forall (fun p => is_finite p.2 = true) sims.
Proof.
  intros Hc Hlen. destruct (similarities_consistent _ _ Hc) as [sims Hs].
  exists sims. split; [done|]. split; [by eapply for_each_length|].
  apply Forall_forall. intros p Hp.
  apply list_elem_of_lookup in Hp as [i Hi].
  apply for_each_Ok in Hs.
  destruct (Forall2_lookup_r _ _ _ _ _ Hs Hi) as (c & Hci & Hsc).
  apply score_Ok in Hsc as [_ Hsc]. apply list_elem_of_lookup_2 in Hci.
  destruct Hc as [Hu Hc]. rewrite Forall_forall in Hc.
  destruct (Hc c Hci) as [Hv Hl].
  destruct (cosine_similarity_bounded user_prefs (Content.features c))
    as (s & Hs' & Hb); [done..|].
  rewrite Hsc in Hs'. injection Hs' as <-. by eapply bounded_by_finite.
Qed.

Lemma similarities_finite_witness :
  ∃ sims,
    similarities contents [0; 0; 5; 4; 3] = Ok sims ∧
    length sims = length contents ∧
    Forall (fun p => is_finite p.2 = true) sims.
Proof.
  apply (similarities_finite contents [0; 0; 5; 4; 3]).
  - exact fixture_consistent2.
  - unfold max_features. simpl. lia.
Defined.

(** ** Edge cases of the datasets *)

(** X7. A user whose preference list is empty makes every request for
    them fail with [ValueError] as soon as the catalog has an entry
    (scikit-learn refuses an array without features), while with an empty
    catalog the same request is answered with an empty list. *)
Theorem recommend_on_empty_preferences (users : gmap Z User.t) contents d n u :
  dict_get d "user_id" = PyInt n -> users !! n = Some u ->
  User.preferences u = [] ->
  recommend_on users [] (PyDict d) = Ok (recommendations []) ∧
  (contents ≠ [] -> recommend_on users contents (PyDict d) = Raise ValueError).
Proof.
  intros Hd Hu Hp. split.
  - by eapply recommend_on_found.
  - intros Hne. eapply recommend_on_Raise; [done..|].
    destruct contents as [|c cs]; [done|]. rewrite Hp.
    unfold similarities. simpl. unfold score, Sklearn.cosine_similarity,
      Sklearn.check_pairwise_arrays. done.
Qed.

Lemma recommend_on_empty_preferences_witness :
  recommend_on (<[7 := User.mk []]> users) [] (request_for 7) =
    Ok (recommendations []) ∧
  (contents ≠ [] ->
   recommend_on (<[7 := User.mk []]> users) contents (request_for 7) = Raise ValueError).
Proof.
  apply (recommend_on_empty_preferences (<[7 := User.mk []]> users) contents
           [("user_id", PyInt 7)] 7 (User.mk [])).
  - reflexivity.
  - by vm_compute.
  - reflexivity.
Defined.

(** X8. The title lookup returns the title of the first catalog entry
    with the identifier: with duplicated identifiers a later entry is
    reported under the title of the first one. *)
Theorem next_title_first contents i t :
  next_title contents i = Ok t ->
  ∃ before c after,
    contents = before ++ c :: after ∧
    Content.id c = i ∧ Content.title c = t ∧
    Forall (fun c' => Content.id c' ≠ i) before.
Proof.
  unfold next_title. induction contents as [|c cs IH]; simpl; [done|].
  destruct (Content.id c =? i) eqn:Hc.
  - intros [= <-]. exists [], c, cs. apply Z.eqb_eq in Hc. by repeat split.
  - intros H. destruct (IH H) as (before & c' & after & -> & Hid & Ht & Hb).
    exists (c :: before), c', after. repeat split; try done.
    constructor; [|done]. by apply Z.eqb_neq.
Qed.

Lemma next_title_first_witness :
  ∃ before c after,
    contents ++ [Content.mk 2 "Remake" [1; 1; 1; 1; 1]] = before ++ c :: after ∧
    Content.id c = 2 ∧ Content.title c = "Sci-Fi Epic" ∧
    Forall (fun c' => Content.id c' ≠ 2) before.
Proof.
  apply (next_title_first (contents ++ [Content.mk 2 "Remake" [1; 1; 1; 1; 1]]) 2).
  reflexivity.
Defined.

(** ** The program on its own datasets *)

Lemma unknown_key_not_found users contents d :
  hashable (dict_get d "user_id") = true ->
  (∀ n, int_of_key (dict_get d "user_id") = Some n -> users !! n = None) ->
  recommend_on users contents (PyDict d) = Ok not_found.
Proof.
  intros Hh Hv. unfold recommend_on. simpl. unfold lookup_key. rewrite Hh. simpl.
  destruct (int_of_key _) as [n|] eqn:Hn; simpl; [|done].
  by rewrite (Hv n).
Qed.


Lemma fixture_users_keys n u : users !! n = Some u -> n = 1 ∨ n = 2.
Proof.
  unfold users. intros H.
  destruct (decide (n = 1)) as [->|H1]; [by left|].
  destruct (decide (n = 2)) as [->|H2]; [by right|].
  rewrite lookup_insert_ne in H by done.
  rewrite lookup_singleton_ne in H by done. done.
Qed.

(** X9. On the datasets of the program, a request whose body is an object
    with a hashable identifier never raises: it is answered with the 404
    error, unless the identifier equals 1 or 2, in which case the answer
    holds exactly three titles. *)
Theorem recommend_total d :
  hashable (dict_get d "user_id") = true ->
  (recommend (PyDict d) = Ok not_found ∧
     ∀ n, int_of_key (dict_get d "user_id") = Some n -> n ≠ 1 ∧ n ≠ 2) ∨
  (∃ titles, recommend (PyDict d) = Ok (recommendations titles) ∧
     length titles = 3%nat ∧
     (int_of_key (dict_get d "user_id") = Some 1 ∨
      int_of_key (dict_get d "user_id") = Some 2)).
Proof.
  intros Hh. unfold recommend.
  destruct (int_of_key (dict_get d "user_id")) as [n|] eqn:Hn.
  - destruct (users !! n) as [u|] eqn:Hu.
    + right. destruct (fixture_users_keys _ _ Hu) as [-> | ->].
      * exists ["Action Adventure"; "Fantasy Tale"; "Sci-Fi Epic"].
        split; [|split; [done|by left]].
        rewrite <-(same_key_same_answer users contents [("user_id", PyInt 1)] d);
          [by vm_compute|done|done|by rewrite Hn].
      * exists ["Comedy Special"; "Drama Series"; "Action Adventure"].
        split; [|split; [done|by right]].
        rewrite <-(same_key_same_answer users contents [("user_id", PyInt 2)] d);
          [by vm_compute|done|done|by rewrite Hn].
    + left. split.
      * apply (unknown_key_not_found users contents d); [done|].
        intros n' Hn'. congruence.
      * intros n' [= <-]. split; intros ->; by vm_compute in Hu.
  - left. split; [|done].
    apply (unknown_key_not_found users contents d); [done|].
    intros n' Hn'. congruence.
Qed.

Lemma recommend_total_witness :
  (recommend (PyDict [("user_id", PyStr "1")]) = Ok not_found ∧
     ∀ n, int_of_key (dict_get [("user_id", PyStr "1")] "user_id") = Some n ->
          n ≠ 1 ∧ n ≠ 2) ∨
  (∃ titles, recommend (PyDict [("user_id", PyStr "1")]) = Ok (recommendations titles) ∧
     length titles = 3%nat ∧
     (int_of_key (dict_get [("user_id", PyStr "1")] "user_id") = Some 1 ∨
      int_of_key (dict_get [("user_id", PyStr "1")] "user_id") = Some 2)).
Proof.
  apply (recommend_total [("user_id", PyStr "1")]). reflexivity.
Defined.

(** ** Sign and symmetry of the scores *)

Lemma of_int_sign z : 0 <= z -> sign_is false (of_int z).
Proof.
  intros Hz. unfold of_int. destruct z as [|m|m]; cbn [binary_normalize]; [done| |lia].
  apply binary_round_sign.
Qed.

Lemma mul_sign x y :
  sign_is false x -> sign_is false y ->
  is_finite x = true -> is_finite y = true ->
  sign_is false (mul x y).
Proof.
  destruct x as [sx|sx| |sx mx ex], y as [sy|sy| |sy my ey]; cbn [sign_is is_finite];
    try done; intros -> -> _ _; try done.
  apply binary_round_aux_sign. lia.
Qed.

Lemma div_sign x n :
  sign_is false x -> is_finite x = true -> norm_ok n -> sign_is false (div x n).
Proof.
  destruct x as [sx|sx| |sx mx ex], n as [sn|[]| |[] mn en];
    cbn [sign_is is_finite norm_ok]; try done; intros -> _ Hn; try done.
  unfold div, SFdiv, SFdiv_core_binary.
  set (m' := match _ with Z.pos _ => _ | 0 => _ | Z.neg _ => _ end).
  assert (Hm' : 0 <= m').
  { unfold m'. destruct (_ - _ - _) as [|p|p]; try lia.
    rewrite Z.shiftl_mul_pow2 by lia.
    apply Z.mul_nonneg_nonneg; [lia|]. apply Z.pow_nonneg. lia. }
  pose proof (Z_div_mod m' (Z.pos mn) ltac:(lia)) as Hdiv.
  destruct (Z.div_eucl m' (Z.pos mn)) as [q r]. destruct Hdiv as [Hq Hr].
  apply binary_round_aux_sign. nia.
Qed.

Lemma normalize_sign a :
  Forall (bounded_by 65) a -> Forall (sign_is false) a ->
  Forall (sign_is false) (Sklearn.normalize a).
Proof.
  intros Ha Hs. unfold Sklearn.normalize. rewrite Forall_fmap.
  pose proof (handle_zeros_norm_ok _ (row_norms_sign _ Ha)) as Hn.
  rewrite Forall_forall in Ha. rewrite Forall_forall in Hs.
  apply Forall_forall. intros x Hx. simpl.
  apply div_sign; [by apply Hs| |done].
  eapply bounded_by_finite. by apply Ha.
Qed.

Lemma dot_sign acc a b :
  sign_is false acc ->
  Forall (fun x => sign_is false x ∧ is_finite x = true) a ->
  Forall (fun y => sign_is false y ∧ is_finite y = true) b ->
  sign_is false (foldl (fun acc p => add acc (mul p.1 p.2)) acc (zip a b)).
Proof.
  intros Hacc Ha. revert acc b Hacc.
  induction Ha as [|x a [Hx Hfx] _ IH]; intros acc b Hacc Hb; [done|].
  destruct Hb as [|y b [Hy Hfy] Hb]; [done|]. cbn [zip zip_with foldl fst snd].
  apply IH; [|done]. apply add_sign; [done|]. by apply mul_sign.
Qed.

Lemma sign_is_not_negative s : sign_is false s -> ltb s zero = false.
Proof. by destruct s as [[]|[]| |[] m e]. Qed.

Lemma normalize_signed_finite X :
  valid_row X -> Forall (fun z => 0 <= z) X ->
  Forall (fun x => sign_is false x ∧ is_finite x = true)
    (Sklearn.normalize (of_int <$> X)).
Proof.
  intros HX Hpos.
  pose proof (valid_row_bounded _ HX) as Hb.
  assert (Hs : Forall (sign_is false) (of_int <$> X)).
  { rewrite Forall_fmap. eapply Forall_impl; [exact Hpos|].
    intros z Hz. by apply of_int_sign. }
  pose proof (normalize_sign _ Hb Hs) as Hns.
  pose proof (valid_row_finite_direction _ HX) as Hnf. unfold finite_direction in Hnf.
  rewrite Forall_forall in Hns. rewrite Forall_forall in Hnf.
  apply Forall_forall. intros x Hx. split; [by apply Hns|by apply Hnf].
Qed.

(** X10. When the preferences and all the features are non-negative
    integers (ratings and flags, as in the datasets of the program), no
    score is negative: every score is a finite number that is not below
    zero. *)
Theorem similarities_not_negative contents user_prefs :
  consistent user_prefs contents ->
  (length user_prefs <= max_features)%nat ->
  Forall (fun z => 0 <= z) user_prefs ->
  Forall (fun c => Forall (fun z => 0 <= z) (Content.features c)) contents ->
  ∃ sims,
    similarities contents user_prefs = Ok sims ∧
    Forall (fun p => is_finite p.2 = true ∧ ltb p.2 zero = false) sims.
Proof.
  intros Hc Hlen Hu Hf. destruct (similarities_consistent _ _ Hc) as [sims Hs].
  exists sims. split; [done|].
  apply Forall_forall. intros p Hp.
  apply list_elem_of_lookup in Hp as [i Hi].
  apply for_each_Ok in Hs.
  destruct (Forall2_lookup_r _ _ _ _ _ Hs Hi) as (c & Hci & Hsc).
  apply score_Ok in Hsc as [_ Hsc]. apply list_elem_of_lookup_2 in Hci.
  destruct Hc as [Hv Hc]. rewrite Forall_forall in Hc.
  destruct (Hc c Hci) as [Hvc Hl].
  rewrite Forall_forall in Hf. specialize (Hf c Hci).
  destruct (cosine_similarity_bounded user_prefs (Content.features c))
    as (s & Hs' & Hb); [done..|].
  assert (s = p.2) as -> by congruence.
  split; [by eapply bounded_by_finite|].
  apply sign_is_not_negative.
  rewrite cosine_similarity_valid in Hsc by done. injection Hsc as <-.
  unfold Sklearn.dot. apply dot_sign; [done|by apply normalize_signed_finite..].
Qed.

Lemma similarities_not_negative_witness :
  ∃ sims,
    similarities contents [5; 4; 0; 0; 5] = Ok sims ∧
    Forall (fun p => is_finite p.2 = true ∧ ltb p.2 zero = false) sims.
Proof.
  apply (similarities_not_negative contents [5; 4; 0; 0; 5]).
  - exact fixture_consistent1.
  - unfold max_features. simpl. lia.
  - fixture_rows.
  - unfold contents. simpl. fixture_rows.
Defined.




(** ** Unique identifiers *)

Lemma Forall_exists_Forall2 {A B} (P : A -> B -> Prop) (l : list B) :
  Forall (fun y => ∃ x, P x y) l -> ∃ k, Forall2 P k l.
Proof.
  induction 1 as [|y l [x Hx] _ [k Hk]]; [by exists []|].
  exists (x :: k). by constructor.
Qed.

Lemma NoDup_fmap_Permutation {A B} (f : A -> B) (k l : list A) :
  NoDup (f <$> l) -> k ⊆ l -> f <$> k ≡ₚ f <$> l -> k ≡ₚ l.
Proof.
  intros Hnd Hsub Hperm.
  apply submseteq_length_Permutation.
  - apply NoDup_submseteq; [|done].
    apply (NoDup_fmap_1 f). by rewrite Hperm.
  - apply Permutation_length in Hperm. rewrite !length_fmap in Hperm. lia.
Qed.

(** X12. When the identifiers of the catalog are unique, the answer lists
    the titles of the first three entries of a reordering of the catalog
    itself, the one the sort gives to their scores: three different
    entries, each under its own title. *)
Theorem recommend_on_ranked_entries (users : gmap Z User.t) contents d n u :
  dict_get d "user_id" = PyInt n -> users !! n = Some u ->
  consistent (User.preferences u) contents ->
  NoDup (Content.id <$> contents) ->
  ∃ sims ranked,
    similarities contents (User.preferences u) = Ok sims ∧
    ranked ≡ₚ contents ∧ NoDup ranked ∧
    Forall2 (fun c p => score (User.preferences u) c = Ok p)
      ranked (sorted_reverse snd sims) ∧
    recommend_on users contents (PyDict d) =
      Ok (recommendations (Content.title <$> take 3 ranked)).
Proof.
  intros Hd Hu Hc Hnd.
  destruct (similarities_consistent _ _ Hc) as [sims Hs].
  assert (Hall : Forall (fun p => ∃ c, c ∈ contents ∧
                          score (User.preferences u) c = Ok p)
                   (sorted_reverse snd sims)).
  { apply Forall_forall. intros p Hp. rewrite sorted_reverse_perm in Hp.
    apply list_elem_of_lookup in Hp as [i Hi].
    apply for_each_Ok in Hs.
    destruct (Forall2_lookup_r _ _ _ _ _ Hs Hi) as (c & Hci & Hsc).
    exists c. split; [by eapply list_elem_of_lookup_2|done]. }
  destruct (Forall_exists_Forall2 _ _ Hall) as [ranked Hr].
  assert (Hsub : ranked ⊆ contents).
  { intros c Hin. apply list_elem_of_lookup in Hin as [i Hi].
    destruct (Forall2_lookup_l _ _ _ _ _ Hr Hi) as (p & _ & Hin & _). done. }
  assert (Hids : Forall2 (fun c p => p.1 = Content.id c) ranked (sorted_reverse snd sims)).
  { eapply Forall2_impl; [exact Hr|]. intros c p [_ Hp]. by apply score_Ok in Hp as [Hp _]. }
  assert (Hfst : Content.id <$> ranked = (sorted_reverse snd sims).*1).
  { clear -Hids. induction Hids as [|c p cs ps Hp _ IH]; [done|].
    rewrite !fmap_cons. congruence. }
  assert (Hperm : ranked ≡ₚ contents).
  { apply (NoDup_fmap_Permutation Content.id); [done|done|].
    rewrite Hfst, sorted_reverse_perm. by rewrite (similarities_ids _ _ _ Hs). }
  exists sims, ranked. split; [done|]. split; [done|]. split.
  { rewrite Hperm. by eapply NoDup_fmap_1. }
  split.
  { eapply Forall2_impl; [exact Hr|]. by intros c p [_ Hp]. }
  eapply recommend_on_found; [done..|].
  unfold top_recs. apply rec_titles_catalog; [done| |by apply Forall2_take].
  intros c Hin. apply Hsub. by eapply subseteq_take.
Qed.

Lemma recommend_on_ranked_entries_witness :
  ∃ sims ranked,
    similarities contents [5; 4; 0; 0; 5] = Ok sims ∧
    ranked ≡ₚ contents ∧ NoDup ranked ∧
    Forall2 (fun c p => score [5; 4; 0; 0; 5] c = Ok p)
      ranked (sorted_reverse snd sims) ∧
    recommend (request_for 1) = Ok (recommendations (Content.title <$> take 3 ranked)).
Proof.
  apply (recommend_on_ranked_entries users contents [("user_id", PyInt 1)] 1
           (User.mk [5; 4; 0; 0; 5])).
  - reflexivity.
  - exact fixture_user1.
  - exact fixture_consistent1.
  - exact fixture_ids_NoDup.
Defined.

(** ** The order of the catalog *)






